(** * rename-llm: the rename-plan validation and execution loops

    A shallow embedding of the part of [main] in [src/index.ts] that runs
    once the proposal has been parsed: the validation loop (lines 158-174),
    the gate on [validationErrors] (lines 176-186), the confirmation and
    the execution loop (lines 188-209).

    The filesystem calls ([fs.pathExists], [fs.rename]) and [path.join]
    belong to external libraries: the program is written against the
    interface [Filesystem], and module [FlatDir] gives one small instance,
    a directory of regular files, on which the definitions run. *)

From stdpp Require Import base decidable option list gmap strings.
From stdpp Require Import pretty.

Open Scope string_scope.
Open Scope list_scope.

(** ** Data model *)

(** [interface RenameOperation { original: string; new: string; reason?: string }] *)
Record RenameOperation := mkOp {
  original : string;
  new : string;
  reason : option string
}.

(** [Array.prototype.includes] on an array of strings. *)
Definition includes (xs : list string) (x : string) : bool :=
  bool_decide (x ∈ xs).

(** [Set.prototype.has] and [Set.prototype.add] on a [Set<string>]. *)
Definition has (s : gset string) (x : string) : bool :=
  bool_decide (x ∈ s).

Definition add (x : string) (s : gset string) : gset string :=
  {[x]} ∪ s.

(** [operations.find(o => o.original === name)]: the first operation whose
    [original] is [name], or [None] for [undefined]. *)
Definition findOriginal (operations : list RenameOperation) (name : string)
  : option RenameOperation :=
  List.find (fun o => String.eqb (original o) name) operations.

(** JavaScript truthiness of the result of [find]: an object is truthy,
    [undefined] is falsy. *)
Definition truthy {A} (o : option A) : bool :=
  match o with Some _ => true | None => false end.

(** ** The outside world *)

(** The filesystem as the program reaches it: [fs.pathExists(p)],
    [fs.rename(p, q)], which changes the filesystem and either returns or
    throws, and [path.join(dir, name)]. *)
Class Filesystem (FS IOError : Type) := {
  pathExists : FS -> string -> bool;
  fs_rename : FS -> string -> string -> FS * option IOError;
  path_join : string -> string -> string
}.

(** What the program writes on the console. [ConsoleErrorWith] is
    [console.error(msg, err)] with the caught error as second argument. *)
Inductive ConsoleEntry (IOError : Type) :=
| ConsoleLog (msg : string)
| ConsoleWarn (msg : string)
| ConsoleError (msg : string)
| ConsoleErrorWith (msg : string) (err : IOError).

Arguments ConsoleLog {IOError} msg.
Arguments ConsoleWarn {IOError} msg.
Arguments ConsoleError {IOError} msg.
Arguments ConsoleErrorWith {IOError} msg err.

(** The state the loops of [main] work on: the filesystem, the console,
    and the two locals [validationErrors] and [newNames]. *)
Record State (FS IOError : Type) := mkState {
  fs : FS;
  console : list (ConsoleEntry IOError);
  validationErrors : list string;
  newNames : gset string
}.

Arguments mkState {FS IOError} _ _ _ _.
Arguments fs {FS IOError} _.
Arguments console {FS IOError} _.
Arguments validationErrors {FS IOError} _.
Arguments newNames {FS IOError} _.

Definition emit {FS IOError} (e : ConsoleEntry IOError) (st : State FS IOError)
  : State FS IOError :=
  mkState (fs st) (console st ++ [e]) (validationErrors st) (newNames st).

Definition pushError {FS IOError} (msg : string) (st : State FS IOError)
  : State FS IOError :=
  mkState (fs st) (console st) (validationErrors st ++ [msg]) (newNames st).

Definition addNewName {FS IOError} (name : string) (st : State FS IOError)
  : State FS IOError :=
  mkState (fs st) (console st) (validationErrors st) (add name (newNames st)).

Definition setFs {FS IOError} (f : FS) (st : State FS IOError) : State FS IOError :=
  mkState f (console st) (validationErrors st) (newNames st).

(** [const validationErrors: string[] = []; const newNames = new Set<string>();]
    on the filesystem [f], with [out] already on the console. *)
Definition initValidation {FS IOError} (f : FS) (out : list (ConsoleEntry IOError))
  : State FS IOError :=
  mkState f out [] ∅.

(** ** The validation loop (lines 161-174) *)

(** The body of [for (const op of operations)]; [onlyFiles] is the
    directory snapshot and [operations] the whole plan. *)
Definition validateOp {FS IOError : Type} `{!Filesystem FS IOError} (targetDir : string)
    (onlyFiles : list string) (operations : list RenameOperation)
    (st : State FS IOError) (op : RenameOperation) : State FS IOError :=
  let st1 :=
    if negb (includes onlyFiles (original op))
    then pushError ("Original file not found: " +:+ original op) st
    else st in
  let st2 :=
    if has (newNames st1) (new op)
    then pushError ("Duplicate target filename: " +:+ new op) st1
    else st1 in
  let st3 := addNewName (new op) st2 in
  if pathExists (fs st3) (path_join targetDir (new op))
     && negb (truthy (findOriginal operations (new op)))
  then emit (ConsoleWarn ("Warning: Target file " +:+ new op +:+ " already exists.")) st3
  else st3.

(** The loop run over a part [ops] of the plan, while the body searches
    the whole plan [operations]. *)
Definition validateFrom {FS IOError : Type} `{!Filesystem FS IOError} (targetDir : string)
    (onlyFiles : list string) (operations ops : list RenameOperation)
    (st : State FS IOError) : State FS IOError :=
  fold_left (validateOp targetDir onlyFiles operations) ops st.

Definition validationLoop {FS IOError : Type} `{!Filesystem FS IOError} (targetDir : string)
    (onlyFiles : list string) (operations : list RenameOperation)
    (st : State FS IOError) : State FS IOError :=
  validateFrom targetDir onlyFiles operations operations st.

(** ** The gate on the validation errors (lines 176-186) *)

(** [validationErrors.forEach(e => console.error(`- ${e}`))] *)
Definition printErrors {FS IOError} (errs : list string) (st : State FS IOError)
  : State FS IOError :=
  fold_left (fun s e => emit (ConsoleError ("- " +:+ e)) s) errs st.

(** Returns whether [main] goes on, and the state. [continueAnyway] is the
    answer to the prompt, which is asked only when there are validation
    errors. *)
Definition validationGate {FS IOError} (continueAnyway : bool)
    (st : State FS IOError) : bool * State FS IOError :=
  if (0 <? length (validationErrors st))%nat then
    let st1 := emit (ConsoleError "Validation Errors:") st in
    let st2 := printErrors (validationErrors st) st1 in
    (continueAnyway, st2)
  else (true, st).

(** ** The execution loop (lines 195-209) *)

(** The body of the loop: one [fs.rename] inside [try]/[catch]. *)
Definition renameOp {FS IOError : Type} `{!Filesystem FS IOError} (targetDir : string)
    (st : State FS IOError) (op : RenameOperation) : State FS IOError :=
  let oldPath := path_join targetDir (original op) in
  let newPath := path_join targetDir (new op) in
  match fs_rename (fs st) oldPath newPath with
  | (f, None) =>
      emit (ConsoleLog ("Renamed: " +:+ original op +:+ " -> " +:+ new op)) (setFs f st)
  | (f, Some err) =>
      emit (ConsoleErrorWith ("Failed to rename " +:+ original op +:+ ":") err) (setFs f st)
  end.

Definition executionLoop {FS IOError : Type} `{!Filesystem FS IOError} (targetDir : string)
    (operations : list RenameOperation) (st : State FS IOError) : State FS IOError :=
  fold_left (renameOp targetDir) operations st.

(** [if (confirm) { for ...; console.log('Done.') } else { console.log('Operation cancelled.') }] *)
Definition executionPhase {FS IOError : Type} `{!Filesystem FS IOError} (targetDir : string)
    (confirm : bool) (operations : list RenameOperation) (st : State FS IOError)
  : State FS IOError :=
  if confirm
  then emit (ConsoleLog "Done.") (executionLoop targetDir operations st)
  else emit (ConsoleLog "Operation cancelled.") st.

(** Lines 158-209 of [main]: validation, gate, confirmation, execution. *)
Definition validateAndExecute {FS IOError : Type} `{!Filesystem FS IOError} (targetDir : string)
    (onlyFiles : list string) (continueAnyway confirm : bool)
    (operations : list RenameOperation) (f : FS) (out : list (ConsoleEntry IOError))
  : State FS IOError :=
  let st := validationLoop targetDir onlyFiles operations (initValidation f out) in
  match validationGate continueAnyway st with
  | (false, st') => st'
  | (true, st') => executionPhase targetDir confirm operations st'
  end.

(** ** Vocabulary of the properties *)

(** The three messages of the validation loop. *)
Definition unknownOriginalMsg (op : RenameOperation) : string :=
  "Original file not found: " +:+ original op.

Definition duplicateTargetMsg (op : RenameOperation) : string :=
  "Duplicate target filename: " +:+ new op.

Definition targetExistsMsg (op : RenameOperation) : string :=
  "Warning: Target file " +:+ new op +:+ " already exists.".

(** Recognising the kind of an entry of [validationErrors]. *)
Definition isUnknownOriginalError (msg : string) : bool :=
  String.prefix "Original file not found: " msg.

Definition isDuplicateTargetError (msg : string) : bool :=
  String.prefix "Duplicate target filename: " msg.

(** The errors one operation adds to [validationErrors] when the names in
    [seen] have been registered before it. *)
Definition opErrors (onlyFiles : list string) (seen : gset string)
    (op : RenameOperation) : list string :=
  (if negb (includes onlyFiles (original op)) then [unknownOriginalMsg op] else [])
  ++ (if has seen (new op) then [duplicateTargetMsg op] else []).

(** The warnings one operation writes on the console. *)
Definition opWarnings {FS IOError : Type} `{!Filesystem FS IOError}
    (targetDir : string) (operations : list RenameOperation) (f : FS)
    (op : RenameOperation) : list (ConsoleEntry IOError) :=
  if pathExists f (path_join targetDir (new op))
     && negb (truthy (findOriginal operations (new op)))
  then [ConsoleWarn (targetExistsMsg op)]
  else [].

(** Errors and warnings of a run of operations, in plan order. *)
Fixpoint planErrors (onlyFiles : list string) (seen : gset string)
    (ops : list RenameOperation) : list string :=
  match ops with
  | [] => []
  | op :: rest =>
      opErrors onlyFiles seen op ++ planErrors onlyFiles (add (new op) seen) rest
  end.

Definition planWarnings {FS IOError : Type} `{!Filesystem FS IOError}
    (targetDir : string) (operations : list RenameOperation) (f : FS)
    (ops : list RenameOperation) : list (ConsoleEntry IOError) :=
  flat_map (opWarnings targetDir operations f) ops.

(** The validation report in the order the specification gives: operation
    by operation, and for each operation the unknown-original error, the
    duplicate-target error, then the target-exists warning, each written as
    the console line the program uses for it. *)
Fixpoint reportInCheckOrder {FS IOError : Type} `{!Filesystem FS IOError}
    (targetDir : string) (onlyFiles : list string)
    (operations : list RenameOperation) (f : FS) (seen : gset string)
    (ops : list RenameOperation) : list (ConsoleEntry IOError) :=
  match ops with
  | [] => []
  | op :: rest =>
      map (fun e => ConsoleError ("- " +:+ e)) (opErrors onlyFiles seen op)
      ++ opWarnings targetDir operations f op
      ++ reportInCheckOrder targetDir onlyFiles operations f (add (new op) seen) rest
  end.

(** The issue lines of a console: everything but the heading of the list
    of errors. *)
Definition isHeading {IOError : Type} (e : ConsoleEntry IOError) : bool :=
  match e with
  | ConsoleError msg => String.eqb msg "Validation Errors:"
  | _ => false
  end.

Definition issueLines {IOError : Type} (out : list (ConsoleEntry IOError))
  : list (ConsoleEntry IOError) :=
  List.filter (fun e => negb (isHeading e)) out.

Definition isWarning {IOError : Type} (e : ConsoleEntry IOError) : bool :=
  match e with ConsoleWarn _ => true | _ => false end.

Definition isErrorLine {IOError : Type} (e : ConsoleEntry IOError) : bool :=
  match e with ConsoleError _ => true | _ => false end.

(** A name that is not a filename component: empty, or with the path
    separator [/] in it. *)
Fixpoint containsSeparator (s : string) : bool :=
  match s with
  | EmptyString => false
  | String c rest =>
      String.eqb (String c EmptyString) "/" || containsSeparator rest
  end.

Definition invalidComponent (s : string) : bool :=
  String.eqb s "" || containsSeparator s.

(** The console line the execution loop writes for an operation, from what
    [fs.rename] returned: the operation was applied, or it failed with the
    error that was thrown. *)
Definition renameEntry {IOError : Type} (op : RenameOperation) (r : option IOError)
  : ConsoleEntry IOError :=
  match r with
  | None => ConsoleLog ("Renamed: " +:+ original op +:+ " -> " +:+ new op)
  | Some err => ConsoleErrorWith ("Failed to rename " +:+ original op +:+ ":") err
  end.

Definition appliedEntry {IOError : Type} (op : RenameOperation) : ConsoleEntry IOError :=
  renameEntry op None.

Definition failedEntry {IOError : Type} (op : RenameOperation) (err : IOError)
  : ConsoleEntry IOError :=
  renameEntry op (Some err).

(** The call of [fs.rename] the execution loop makes for an operation on
    the filesystem [f]. *)
Definition renameCall {FS IOError : Type} `{!Filesystem FS IOError}
    (targetDir : string) (f : FS) (op : RenameOperation) : FS * option IOError :=
  fs_rename f (path_join targetDir (original op)) (path_join targetDir (new op)).

(** The filesystem after the calls of [fs.rename] for the operations
    [ops], made one after the other from the filesystem [f], each call on
    what the call before it left, whether that call returned or threw.
    It is built from the calls alone, not from the loop. *)
Fixpoint fsAfterCalls {FS IOError : Type} `{!Filesystem FS IOError}
    (targetDir : string) (f : FS) (ops : list RenameOperation) : FS :=
  match ops with
  | [] => f
  | op :: rest => fsAfterCalls targetDir (renameCall targetDir f op).1 rest
  end.

(** What the model asks of [fs.rename] where a property depends on it, as
    rename(2) behaves on the regular files of one directory: a missing
    source makes it fail, a failed call creates nothing, a successful call
    removes the source when source and target differ, and creates nothing
    but the target. *)
Class RenameLaws (FS IOError : Type) `{!Filesystem FS IOError} : Prop := {
  rename_missing_source : forall (f : FS) (p q : string),
    pathExists f p = false -> (fs_rename f p q).2 <> None;
  rename_failed_creates_nothing : forall (f : FS) (p q r : string),
    (fs_rename f p q).2 <> None ->
    pathExists f r = false -> pathExists (fs_rename f p q).1 r = false;
  rename_removes_source : forall (f : FS) (p q : string),
    (fs_rename f p q).2 = None -> p <> q ->
    pathExists (fs_rename f p q).1 p = false;
  rename_creates_only_target : forall (f : FS) (p q r : string),
    (fs_rename f p q).2 = None -> r <> q ->
    pathExists f r = false -> pathExists (fs_rename f p q).1 r = false
}.

(** ** A concrete directory of regular files *)

Module FlatDir.

(** The files of the directory: path to content. *)
Abbreviation Dir := (gmap string string).

Inductive Errno := ENOENT.

Definition exists_ (d : Dir) (p : string) : bool :=
  bool_decide (is_Some (d !! p)).

(** rename(2) between regular files: fails when the source is missing,
    does nothing when source and target are the same file, and otherwise
    moves the content, replacing an existing target. *)
Definition rename (d : Dir) (old new_ : string) : Dir * option Errno :=
  match d !! old with
  | None => (d, Some ENOENT)
  | Some c =>
      if decide (old = new_) then (d, None)
      else (<[new_ := c]> (delete old d), None)
  end.

Definition join (dir name : string) : string := dir +:+ "/" +:+ name.

#[global] Instance flatdir : Filesystem Dir Errno :=
  {| pathExists := exists_; fs_rename := rename; path_join := join |}.

(** The directory ["d"] holding the given files, each with its content. *)
Definition dirOf (files : list (string * string)) : Dir :=
  list_to_map (map (fun nc => (join "d" nc.1, nc.2)) files).

(** The validation loop and the gate on a fresh console. *)
Definition validated (onlyFiles : list string) (operations : list RenameOperation)
    (d : Dir) : State Dir Errno :=
  validationLoop "d" onlyFiles operations (initValidation d []).

Definition shown (continueAnyway : bool) (onlyFiles : list string)
    (operations : list RenameOperation) (d : Dir) : list (ConsoleEntry Errno) :=
  console (validationGate continueAnyway (validated onlyFiles operations d)).2.

(** The execution loop on a fresh console. *)
Definition executed (operations : list RenameOperation) (d : Dir) : State Dir Errno :=
  executionLoop "d" operations (initValidation d []).

End FlatDir.

(** Case analysis on membership in a list that is written out. *)
Ltac each_member H :=
  repeat (apply elem_of_cons in H as [->|H]); [..|by apply elem_of_nil in H].

(** Plans and directories the statements below are run on. *)
Module Examples.

Definition rename_to (o n : string) : RenameOperation := mkOp o n None.

Definition diskA : FlatDir.Dir := FlatDir.dirOf [("a.txt", "A")].

Definition diskAB : FlatDir.Dir := FlatDir.dirOf [("a.txt", "A"); ("b.txt", "B")].

Definition diskAOut : FlatDir.Dir := FlatDir.dirOf [("a.txt", "A"); ("out.txt", "O")].

Definition diskAOutNote : FlatDir.Dir :=
  FlatDir.dirOf [("a.txt", "A"); ("out.txt", "O"); ("note.txt", "N")].

Definition planDuplicate : list RenameOperation :=
  [rename_to "a.txt" "x.txt"; rename_to "b.txt" "x.txt"].

Definition planInvalidNames : list RenameOperation :=
  [rename_to "a.txt" ""; rename_to "b.txt" "sub/b.txt"].

Definition planIdentity : list RenameOperation :=
  [rename_to "a.txt" "a.txt"].

Definition planOntoExisting : list RenameOperation :=
  [rename_to "a.txt" "out.txt"].

Definition planUnknownOntoExisting : list RenameOperation :=
  [rename_to "c.txt" "out.txt"].

Definition planOneFailure : list RenameOperation :=
  [rename_to "a.txt" "x.txt"; rename_to "missing.txt" "y.txt"; rename_to "b.txt" "z.txt"].

Definition planTwo : list RenameOperation :=
  [rename_to "a.txt" "x.txt"; rename_to "b.txt" "y.txt"].

Definition diskAC : FlatDir.Dir := FlatDir.dirOf [("a.txt", "A"); ("c.txt", "C")].

Definition planReusedName : list RenameOperation :=
  [rename_to "a.txt" "b.txt"; rename_to "c.txt" "a.txt"].

Definition planGhostDuplicate : list RenameOperation :=
  [rename_to "ghost.txt" "x.txt"; rename_to "b.txt" "x.txt"].

End Examples.

(** ** The rest of [main]: snapshot, proposal, display (lines 70-155, 211-213) *)

(** A call that returns a value or throws. *)
Inductive Outcome (E A : Type) :=
| Threw (e : E)
| Returned (a : A).

Arguments Threw {E A} e.
Arguments Returned {E A} a.

(** The calls of [main] before the validation. [readdir] and [statIsFile]
    are [fs.readdir(dir)] and [(await fs.stat(p)).isFile()]. [completion]
    is the request to the chat service followed by the read of
    [choices[0]?.message?.content]: its messages are built from the list of
    files and the prompt alone, and it answers with a text, with nothing
    ([undefined] or [null]), or throws. [parseOperations] is the inner
    [try] block, [JSON.parse(content)] and [parsed.operations || []], on a
    response whose operations have the fields of [RenameOperation]: [None]
    when the block throws. The type [IOError] stands for whatever is
    thrown and caught. *)
Class Outside (FS IOError : Type) := {
  readdir : FS -> string -> Outcome IOError (list string);
  statIsFile : FS -> string -> Outcome IOError bool;
  completion : list string -> string -> Outcome IOError (option string);
  parseOperations : string -> option (list RenameOperation)
}.

(** JavaScript truthiness of a string that may be missing: [undefined] and
    the empty string are falsy. *)
Definition truthyString (s : option string) : bool :=
  match s with
  | Some text => negb (String.eqb text "")
  | None => false
  end.

(** The objects [{ name: f, isFile: stat.isFile() }]. *)
Record FileStat := mkFileStat {
  name : string;
  isFile : bool
}.

(** [Promise.all(files.map(async f => ...))]: the stats of all entries, or
    a rejection when a call of [fs.stat] throws. When several calls throw,
    the program reports the one that settles first, which the source does
    not determine; here it is the first in the listing, and no statement
    below depends on which one it is. *)
Fixpoint statAll {FS IOError : Type} `{!Filesystem FS IOError} `{!Outside FS IOError}
    (f : FS) (targetDir : string) (files : list string)
  : Outcome IOError (list FileStat) :=
  match files with
  | [] => Returned []
  | entry :: rest =>
      match statIsFile f (path_join targetDir entry) with
      | Threw e => Threw e
      | Returned b =>
          match statAll f targetDir rest with
          | Threw e => Threw e
          | Returned stats => Returned (mkFileStat entry b :: stats)
          end
      end
  end.

(** Lines 85-92: the names of the regular files of the directory,
    [fileStats.filter(s => s.isFile).map(s => s.name)]. *)
Definition readOnlyFiles {FS IOError : Type} `{!Filesystem FS IOError}
    `{!Outside FS IOError} (f : FS) (targetDir : string)
  : Outcome IOError (list string) :=
  match readdir f targetDir with
  | Threw e => Threw e
  | Returned files =>
      match statAll f targetDir files with
      | Threw e => Threw e
      | Returned fileStats => Returned (map name (List.filter isFile fileStats))
      end
  end.

(** [op.reason || 'No reason provided'] *)
Definition reasonText (op : RenameOperation) : string :=
  if truthyString (reason op)
  then match reason op with Some r => r | None => "" end
  else "No reason provided".

(** The line of one proposal,
    [`${op.original} -> ${op.new}  (${op.reason || 'No reason provided'})`]. *)
Definition proposalLine (op : RenameOperation) : string :=
  original op +:+ " -> " +:+ new op +:+ "  (" +:+ reasonText op +:+ ")".

(** The line feed that starts ['\nProposed Changes:']. *)
Definition lineFeed : string :=
  String (Ascii.ascii_of_nat 10) EmptyString.

(** Lines 152-155: the heading and [operations.forEach(op => console.log(...))]. *)
Definition showProposals {IOError : Type} (operations : list RenameOperation)
    (out : list (ConsoleEntry IOError)) : list (ConsoleEntry IOError) :=
  fold_left (fun lines op => lines ++ [ConsoleLog (proposalLine op)]) operations
    (out ++ [ConsoleLog (lineFeed +:+ "Proposed Changes:")]).

(** Lines 132-209: from the content of the response to the end. The
    result is the filesystem and the console. A string given to
    [console.error] after the message is printed after it, one space
    apart. *)
Definition afterResponse {FS IOError : Type} `{!Filesystem FS IOError}
    `{!Outside FS IOError} (targetDir : string) (onlyFiles : list string)
    (continueAnyway confirm : bool) (content : option string)
    (f : FS) (out : list (ConsoleEntry IOError)) : FS * list (ConsoleEntry IOError) :=
  if negb (truthyString content)
  then (f, out ++ [ConsoleError "Received empty response from LLM."])
  else
    let text := match content with Some c => c | None => "" end in
    match parseOperations text with
    | None =>
        (f, out ++ [ConsoleError ("Failed to parse LLM response as JSON: " +:+ text)])
    | Some operations =>
        if (length operations =? 0)%nat
        then (f, out ++ [ConsoleLog "No files matched the criteria for renaming."])
        else
          let st := validateAndExecute targetDir onlyFiles continueAnyway confirm
                      operations f (showProposals operations out) in
          (fs st, console st)
    end.

(** Lines 70-213 of [main], once the two questions are answered: the check
    of the key, then the [try] block with its [catch]. [apiKey] is
    [process.env.OPENROUTER_API_KEY]. *)
Definition mainBody {FS IOError : Type} `{!Filesystem FS IOError}
    `{!Outside FS IOError} (apiKey : option string) (targetDir renamePrompt : string)
    (continueAnyway confirm : bool) (f : FS) : FS * list (ConsoleEntry IOError) :=
  if negb (truthyString apiKey)
  then (f, [ConsoleError
              "Error: OPENROUTER_API_KEY is not set in environment variables or .env file."])
  else
    match readOnlyFiles f targetDir with
    | Threw e => (f, [ConsoleErrorWith "An error occurred:" e])
    | Returned onlyFiles =>
        if (length onlyFiles =? 0)%nat
        then (f, [ConsoleLog "No files found in the target directory."])
        else
          let out :=
            [ConsoleLog ("Found " +:+ pretty (length onlyFiles)
                         +:+ " files. Querying LLM...")] in
          match completion onlyFiles renamePrompt with
          | Threw e => (f, out ++ [ConsoleErrorWith "An error occurred:" e])
          | Returned content =>
              afterResponse targetDir onlyFiles continueAnyway confirm content f out
          end
    end.

(** A further law of rename(2), asked where a property depends on it: a
    call, failed or not, removes no path but its source. *)
Class RenameKeeps (FS IOError : Type) `{!Filesystem FS IOError} : Prop := {
  rename_keeps_others : forall (f : FS) (p q r : string),
    r <> p -> pathExists f r = true -> pathExists (fs_rename f p q).1 r = true
}.

(** Scenes for the rest of [main]: what the directory lists, which of the
    entries are subdirectories, what the chat service answers and what the
    answer parses to. *)
Module Desk.

Import FlatDir.

Definition outside (listing dirs : list string) (reply : Outcome Errno (option string))
    (plan : option (list RenameOperation)) : Outside Dir Errno :=
  {| readdir := fun _ _ => Returned listing;
     statIsFile := fun d p =>
       if bool_decide (p ∈ map (join "d") dirs) then Returned false
       else if exists_ d p then Returned true
       else Threw ENOENT;
     completion := fun _ _ => reply;
     parseOperations := fun _ => plan |}.

(** A directory listing with two files and a subdirectory, and a service
    that proposes to rename the two files. *)
#[global] Instance office : Outside Dir Errno :=
  outside ["a.txt"; "b.txt"; "sub"] ["sub"]
    (Returned (Some "rename a.txt to x.txt and b.txt to y.txt"))
    (Some [mkOp "a.txt" "x.txt" None; mkOp "b.txt" "y.txt" (Some "")]).

(** A directory that holds a subdirectory and nothing else. *)
Definition onlySub : Outside Dir Errno :=
  outside ["sub"] ["sub"] (Returned None) None.

End Desk.

(** ** The validation loop, step by step *)

Section Validation.

Context {FS IOError : Type} `{!Filesystem FS IOError}.
Variable targetDir : string.
Variable onlyFiles : list string.

Implicit Types (st : State FS IOError) (op : RenameOperation).
Implicit Types (operations ops pre post : list RenameOperation).

(** One turn of the loop adds the operation's errors and warnings and
    registers its [new] name; it leaves the filesystem alone. *)
Lemma validateOp_eq operations st op :
  validateOp targetDir onlyFiles operations st op =
  mkState (fs st)
    (console st ++ opWarnings targetDir operations (fs st) op)
    (validationErrors st ++ opErrors onlyFiles (newNames st) op)
    (add (new op) (newNames st)).
Proof.
  destruct st as [f out errs seen].
  unfold validateOp, opErrors, opWarnings, unknownOriginalMsg,
    duplicateTargetMsg, targetExistsMsg; simpl.
  destruct (includes onlyFiles (original op)); simpl;
    destruct (has seen (new op)); simpl;
    destruct (pathExists f (path_join targetDir (new op))
              && negb (truthy (findOriginal operations (new op)))); simpl;
    unfold emit, addNewName, pushError; simpl;
    rewrite ?app_nil_r, <- ?app_assoc; reflexivity.
Qed.

Lemma validateFrom_eq operations ops st :
  validateFrom targetDir onlyFiles operations ops st =
  mkState (fs st)
    (console st ++ planWarnings targetDir operations (fs st) ops)
    (validationErrors st ++ planErrors onlyFiles (newNames st) ops)
    (list_to_set (map new ops) ∪ newNames st).
Proof.
  revert st; induction ops as [|op rest IH]; intros st.
  - destruct st as [f out errs seen]; simpl.
    rewrite !app_nil_r. f_equal. by rewrite (left_id_L ∅ (∪)).
  - unfold validateFrom in *; simpl. rewrite IH, validateOp_eq; simpl.
    rewrite <- !app_assoc. f_equal. unfold add.
    apply set_eq. intros y. rewrite !elem_of_union. tauto.
Qed.

Lemma validateFrom_app operations pre post st :
  validateFrom targetDir onlyFiles operations (pre ++ post) st =
  validateFrom targetDir onlyFiles operations post
    (validateFrom targetDir onlyFiles operations pre st).
Proof. unfold validateFrom. apply fold_left_app. Qed.

Lemma validateFrom_snoc operations pre op st :
  validateFrom targetDir onlyFiles operations (pre ++ [op]) st =
  validateOp targetDir onlyFiles operations
    (validateFrom targetDir onlyFiles operations pre st) op.
Proof. rewrite validateFrom_app. reflexivity. Qed.

(** The names registered before an operation are the [new] names of the
    operations before it. *)
Lemma has_seen pre (n : string) :
  has (list_to_set (map new pre) ∪ ∅) n = bool_decide (n ∈ map new pre).
Proof.
  unfold has. apply bool_decide_ext.
  rewrite elem_of_union, elem_of_list_to_set.
  pose proof (not_elem_of_empty (C:=gset string) n). tauto.
Qed.

(** After the operations [pre], started from [initValidation]. *)
Lemma validateFrom_init operations pre (f : FS) out :
  validateFrom targetDir onlyFiles operations pre (initValidation f out) =
  mkState f
    (out ++ planWarnings targetDir operations f pre)
    (planErrors onlyFiles ∅ pre)
    (list_to_set (map new pre) ∪ ∅).
Proof. rewrite validateFrom_eq. reflexivity. Qed.

(** [find] answers exactly when some operation has the name as [original]. *)
Lemma findOriginal_truthy operations (n : string) :
  truthy (findOriginal operations n) = true <->
  exists o, o ∈ operations /\ original o = n.
Proof.
  unfold findOriginal. split.
  - destruct (List.find _ operations) as [o|] eqn:E; [intros _ | discriminate].
    apply List.find_some in E as [Hin Heq].
    exists o. split; [by apply list_elem_of_In | by apply String.eqb_eq].
  - intros (o & Hin & Heq).
    destruct (List.find _ operations) as [o'|] eqn:E; [reflexivity|].
    apply list_elem_of_In in Hin.
    pose proof (List.find_none _ _ E o Hin) as Hno. simpl in Hno.
    apply String.eqb_neq in Hno. contradiction.
Qed.

Lemma findOriginal_falsy operations (n : string) :
  (forall o, o ∈ operations -> original o <> n) ->
  truthy (findOriginal operations n) = false.
Proof.
  intros Hno. destruct (truthy (findOriginal operations n)) eqn:E; [|reflexivity].
  apply findOriginal_truthy in E as (o & Hin & Heq). destruct (Hno o Hin Heq).
Qed.

(** The two kinds of error message cannot be mistaken for one another. *)
Lemma isUnknown_unknown op : isUnknownOriginalError (unknownOriginalMsg op) = true.
Proof. unfold unknownOriginalMsg. simpl. by destruct (original op). Qed.

Lemma isUnknown_duplicate op : isUnknownOriginalError (duplicateTargetMsg op) = false.
Proof. reflexivity. Qed.

Lemma isDuplicate_duplicate op : isDuplicateTargetError (duplicateTargetMsg op) = true.
Proof. unfold duplicateTargetMsg. simpl. by destruct (new op). Qed.

Lemma isDuplicate_unknown op : isDuplicateTargetError (unknownOriginalMsg op) = false.
Proof. reflexivity. Qed.

Lemma filter_unknown_opErrors seen op :
  List.filter isUnknownOriginalError (opErrors onlyFiles seen op) =
  if includes onlyFiles (original op) then [] else [unknownOriginalMsg op].
Proof.
  unfold opErrors.
  destruct (includes onlyFiles (original op)), (has seen (new op)); simpl;
    rewrite ?isUnknown_unknown, ?isUnknown_duplicate; reflexivity.
Qed.

Lemma filter_duplicate_opErrors seen op :
  List.filter isDuplicateTargetError (opErrors onlyFiles seen op) =
  if has seen (new op) then [duplicateTargetMsg op] else [].
Proof.
  unfold opErrors.
  destruct (includes onlyFiles (original op)), (has seen (new op)); simpl;
    rewrite ?isDuplicate_duplicate, ?isDuplicate_unknown; reflexivity.
Qed.

Lemma filter_unknown_planErrors seen ops :
  List.filter isUnknownOriginalError (planErrors onlyFiles seen ops) =
  map unknownOriginalMsg
    (List.filter (fun op => negb (includes onlyFiles (original op))) ops).
Proof.
  revert seen; induction ops as [|op rest IH]; intros seen; [reflexivity|].
  simpl. rewrite List.filter_app, filter_unknown_opErrors, IH.
  destruct (includes onlyFiles (original op)); reflexivity.
Qed.

(** A plan whose originals are all known and whose targets are all
    different has no error. *)
Lemma planErrors_clean seen ops :
  (forall o, o ∈ ops -> original o ∈ onlyFiles) ->
  NoDup (map new ops) ->
  (forall o, o ∈ ops -> new o ∉ seen) ->
  planErrors onlyFiles seen ops = [].
Proof.
  revert seen; induction ops as [|op rest IH]; intros seen Hknown Hnd Hfresh;
    [reflexivity|].
  simpl in *. apply NoDup_cons in Hnd as [Hnotin Hnd].
  assert (Hop : op ∈ op :: rest) by left.
  unfold opErrors, includes, has.
  rewrite (bool_decide_eq_true_2 _ (Hknown op Hop)).
  rewrite (bool_decide_eq_false_2 _ (Hfresh op Hop)). simpl.
  apply IH; [intros o Ho; apply Hknown; by right | done |].
  intros o Ho. unfold add. apply not_elem_of_union. split.
  - apply not_elem_of_singleton. intros Heq. apply Hnotin. rewrite <- Heq.
    by apply list_elem_of_fmap_2.
  - apply Hfresh. by right.
Qed.

Lemma unknown_in_planErrors seen ops op :
  op ∈ ops -> original op ∉ onlyFiles ->
  unknownOriginalMsg op ∈ planErrors onlyFiles seen ops.
Proof.
  intros Hin Habs. revert seen.
  induction Hin as [op rest|op o rest _ IH]; intros seen; simpl.
  - unfold opErrors, includes. rewrite (bool_decide_eq_false_2 _ Habs). simpl. left.
  - apply elem_of_app. right. apply IH; assumption.
Qed.

(** The errors of one operation, with the names registered so far read
    off the operations before it. *)
Lemma opErrors_after pre op :
  opErrors onlyFiles (list_to_set (map new pre) ∪ ∅) op =
  ((if bool_decide (original op ∈ onlyFiles) then [] else [unknownOriginalMsg op])
   ++ (if bool_decide (new op ∈ map new pre) then [duplicateTargetMsg op] else []))%list.
Proof.
  unfold opErrors. rewrite has_seen. unfold includes.
  destruct (bool_decide (original op ∈ onlyFiles)); reflexivity.
Qed.

Lemma step_errors operations pre op (f : FS) out :
  let st := validateFrom targetDir onlyFiles operations pre (initValidation f out) in
  validationErrors (validateOp targetDir onlyFiles operations st op) =
  (validationErrors st
   ++ (if bool_decide (original op ∈ onlyFiles) then [] else [unknownOriginalMsg op])
   ++ (if bool_decide (new op ∈ map new pre) then [duplicateTargetMsg op] else []))%list.
Proof.
  intros st. subst st. rewrite validateOp_eq, validateFrom_init. simpl.
  by rewrite opErrors_after.
Qed.

Lemma step_console operations pre op (f : FS) out :
  let st := validateFrom targetDir onlyFiles operations pre (initValidation f out) in
  console (validateOp targetDir onlyFiles operations st op) =
  console st ++ opWarnings targetDir operations f op.
Proof.
  intros st. subst st. rewrite validateOp_eq, validateFrom_init. reflexivity.
Qed.

(** *** The claims on the validation loop *)

(** C1. Every operation whose [original] is not in the snapshot yields
    the error "Original file not found", and none is passed over: the
    errors of that kind in [validationErrors] are, in plan order, one for
    each such operation; each of them is in the report; and when every
    [original] is absent there is one for every operation of the plan. *)
Theorem unknown_originals_all_reported operations (f : FS) out :
  let errs := validationErrors
                (validationLoop targetDir onlyFiles operations (initValidation f out)) in
  List.filter isUnknownOriginalError errs =
    map unknownOriginalMsg
      (List.filter (fun op => negb (includes onlyFiles (original op))) operations)
  /\ (forall op, op ∈ operations -> original op ∉ onlyFiles ->
        unknownOriginalMsg op ∈ errs)
  /\ (Forall (fun op => original op ∉ onlyFiles) operations ->
        List.filter isUnknownOriginalError errs = map unknownOriginalMsg operations).
Proof.
  intros errs.
  assert (Heq : List.filter isUnknownOriginalError errs =
    map unknownOriginalMsg
      (List.filter (fun op => negb (includes onlyFiles (original op))) operations)).
  { subst errs. unfold validationLoop. rewrite validateFrom_init. simpl.
    apply filter_unknown_planErrors. }
  split; [exact Heq|]. split.
  - intros op Hin Habs. subst errs. unfold validationLoop.
    rewrite validateFrom_init. simpl. by apply unknown_in_planErrors.
  - intros Hall. rewrite Heq. f_equal. clear errs Heq.
    induction Hall as [|op rest Hop _ IH]; [reflexivity|].
    simpl. unfold includes at 1. rewrite (bool_decide_eq_false_2 _ Hop). simpl.
    by rewrite IH.
Qed.

(** C2, as the code has it. An operation is flagged as a duplicate target
    exactly when an operation before it in the plan has the same [new]:
    of the operations that share a target, the second and every later one
    get the error, the first one does not. *)
Theorem duplicate_flagged_from_second_occurrence operations pre op post (f : FS) out :
  operations = pre ++ op :: post ->
  let st := validateFrom targetDir onlyFiles operations pre (initValidation f out) in
  List.filter isDuplicateTargetError
    (validationErrors (validateOp targetDir onlyFiles operations st op)) =
  (List.filter isDuplicateTargetError (validationErrors st)
   ++ (if bool_decide (new op ∈ map new pre) then [duplicateTargetMsg op] else []))%list.
Proof.
  intros _ st. subst st. rewrite step_errors.
  rewrite !List.filter_app. f_equal.
  destruct (bool_decide (original op ∈ onlyFiles)),
    (bool_decide (new op ∈ map new pre)); simpl;
    rewrite ?isDuplicate_duplicate, ?isDuplicate_unknown; reflexivity.
Qed.

(** C3, as the code has it. The loop has no check of the syntax of [new]:
    an operation whose [new] is empty or contains a path separator adds no
    validation error when its [original] is in the snapshot and no earlier
    operation has the same [new]. *)
Theorem invalid_target_name_not_checked operations pre op post (f : FS) out :
  operations = pre ++ op :: post ->
  invalidComponent (new op) = true ->
  original op ∈ onlyFiles ->
  new op ∉ map new pre ->
  let st := validateFrom targetDir onlyFiles operations pre (initValidation f out) in
  validationErrors (validateOp targetDir onlyFiles operations st op) =
  validationErrors st.
Proof.
  intros _ _ Hknown Hfresh st. subst st. rewrite step_errors.
  rewrite (bool_decide_eq_true_2 _ Hknown), (bool_decide_eq_false_2 _ Hfresh).
  by rewrite !app_nil_r.
Qed.

(** C4, as the code has it. When the target of an operation exists on disk
    and no operation of the plan, the operation itself included, has that
    name as its [original], the loop writes the target-exists warning for
    it. The warning is no error: a plan whose originals are all in the
    snapshot and whose targets are all different ends with no validation
    error, the gate lets [main] go on without asking, and whether the
    renames are run depends on the confirmation alone. *)
Theorem target_exists_warns_without_blocking
    operations pre op post (f : FS) out continueAnyway confirm :
  operations = pre ++ op :: post ->
  pathExists f (path_join targetDir (new op)) = true ->
  (forall o, o ∈ operations -> original o <> new op) ->
  let st := validateFrom targetDir onlyFiles operations pre (initValidation f out) in
  let final := validationLoop targetDir onlyFiles operations (initValidation f out) in
  console (validateOp targetDir onlyFiles operations st op) =
    console st ++ [ConsoleWarn (targetExistsMsg op)]
  /\ ConsoleWarn (targetExistsMsg op) ∈ console final
  /\ ((forall o, o ∈ operations -> original o ∈ onlyFiles) ->
      NoDup (map new operations) ->
      validationErrors final = []
      /\ validationGate continueAnyway final = (true, final)
      /\ validateAndExecute targetDir onlyFiles continueAnyway confirm operations f out =
           executionPhase targetDir confirm operations final).
Proof.
  intros Hplan Hex Hnone st final.
  assert (Hw : opWarnings targetDir operations f op = [ConsoleWarn (targetExistsMsg op)]).
  { unfold opWarnings. by rewrite Hex, (findOriginal_falsy _ _ Hnone). }
  split; [|split].
  - subst st. by rewrite step_console, Hw.
  - subst final. unfold validationLoop. rewrite validateFrom_init. simpl.
    apply elem_of_app. right. unfold planWarnings.
    apply list_elem_of_In, List.in_flat_map. exists op. split.
    + apply list_elem_of_In. rewrite Hplan. apply elem_of_app. right. left.
    + rewrite Hw. by left.
  - intros Hknown Hnd.
    assert (Hclean : validationErrors final = []).
    { subst final. unfold validationLoop. rewrite validateFrom_init. simpl.
      apply planErrors_clean; [done | done |].
      intros o _. apply not_elem_of_empty. }
    assert (Hgate : validationGate continueAnyway final = (true, final)).
    { unfold validationGate. by rewrite Hclean. }
    split; [exact Hclean|]. split; [exact Hgate|].
    unfold validateAndExecute. fold final. by rewrite Hgate.
Qed.

(** The warnings and the error lines of the report in check order are
    the warnings and the errors of the loop. *)
Lemma warnings_of_report operations (f : FS) seen ops :
  List.filter isWarning
    (reportInCheckOrder targetDir onlyFiles operations f seen ops) =
  planWarnings targetDir operations f ops.
Proof.
  revert seen; induction ops as [|op rest IH]; intros seen; [reflexivity|].
  simpl. rewrite !List.filter_app, IH. clear IH.
  assert (He : List.filter (isWarning (IOError:=IOError))
            (map (fun e => ConsoleError ("- " +:+ e)) (opErrors onlyFiles seen op)) = []).
  { induction (opErrors onlyFiles seen op) as [|e es IHe]; [reflexivity | exact IHe]. }
  rewrite He. simpl. f_equal.
  unfold opWarnings. destruct (_ && _); reflexivity.
Qed.

Lemma error_lines_of_report operations (f : FS) seen ops :
  List.filter isErrorLine
    (reportInCheckOrder targetDir onlyFiles operations f seen ops) =
  map (fun e => ConsoleError ("- " +:+ e)) (planErrors onlyFiles seen ops).
Proof.
  revert seen; induction ops as [|op rest IH]; intros seen; [reflexivity|].
  simpl. rewrite !List.filter_app, IH, map_app. clear IH.
  assert (He : List.filter (isErrorLine (IOError:=IOError))
            (map (fun e => ConsoleError ("- " +:+ e)) (opErrors onlyFiles seen op)) =
          map (fun e => ConsoleError ("- " +:+ e)) (opErrors onlyFiles seen op)).
  { induction (opErrors onlyFiles seen op) as [|e es IHe]; [reflexivity|].
    simpl. by rewrite IHe. }
  rewrite He. f_equal.
  unfold opWarnings. destruct (_ && _); reflexivity.
Qed.

Lemma printErrors_eq errs (st : State FS IOError) :
  printErrors errs st =
  mkState (fs st) (console st ++ map (fun e => ConsoleError ("- " +:+ e)) errs)
    (validationErrors st) (newNames st).
Proof.
  revert st; induction errs as [|e es IH]; intros st.
  - destruct st; simpl. by rewrite app_nil_r.
  - unfold printErrors in *. simpl. rewrite IH. simpl.
    by rewrite <- app_assoc.
Qed.

(** C7, as the code has it. The loop never stops early: every operation
    goes through its three checks (unknown original, duplicate target,
    target exists), whatever the operations before it gave. There is no
    check of the file name, and the issues are not kept in one list: with
    [report] the issues operation by operation and check by check, the
    console holds the warnings of [report], written as they are found, and
    [validationErrors] holds its errors; the gate then lists these errors
    after the warnings.  Each of the two keeps the order of the plan, and
    the errors of one operation keep the order of the checks. *)
Theorem report_is_warnings_then_errors operations (f : FS) out continueAnyway :
  let st := validationLoop targetDir onlyFiles operations (initValidation f out) in
  let report := reportInCheckOrder targetDir onlyFiles operations f ∅ operations in
  console st = out ++ List.filter isWarning report
  /\ map (fun e => ConsoleError ("- " +:+ e)) (validationErrors st) =
       List.filter isErrorLine report
  /\ validationErrors st = planErrors onlyFiles ∅ operations
  /\ console (validationGate continueAnyway st).2 =
       out ++ List.filter isWarning report
       ++ (if (0 <? length (validationErrors st))%nat
           then ConsoleError "Validation Errors:" :: List.filter isErrorLine report
           else []).
Proof.
  intros st report. subst st report. unfold validationLoop.
  rewrite validateFrom_init, warnings_of_report, error_lines_of_report. simpl.
  repeat split; try reflexivity.
  unfold validationGate. simpl.
  destruct (0 <? length (planErrors onlyFiles ∅ operations))%nat; simpl.
  - rewrite printErrors_eq. simpl. rewrite <- !app_assoc. reflexivity.
  - by rewrite app_nil_r.
Qed.

Lemma planWarnings_ext operations (f1 f2 : FS) ops :
  (forall op, op ∈ ops ->
     pathExists f1 (path_join targetDir (new op)) =
     pathExists f2 (path_join targetDir (new op))) ->
  planWarnings targetDir operations f1 ops = planWarnings targetDir operations f2 ops.
Proof.
  induction ops as [|op rest IH]; intros Hagree; [reflexivity|].
  unfold planWarnings in *. simpl. rewrite IH.
  - unfold opWarnings. rewrite (Hagree op); [reflexivity | left].
  - intros o Ho. apply Hagree. by right.
Qed.

(** C8. Validation is a function of the snapshot, the plan and the
    answers of the existence probe on the targets of the plan: two runs on
    filesystems that answer alike for every [new] of the plan give the same
    errors in the same order and write the same lines in the same order;
    and validation returns the filesystem it was given. *)
Theorem validation_deterministic operations (f1 f2 : FS) out :
  (forall op, op ∈ operations ->
     pathExists f1 (path_join targetDir (new op)) =
     pathExists f2 (path_join targetDir (new op))) ->
  let st1 := validationLoop targetDir onlyFiles operations (initValidation f1 out) in
  let st2 := validationLoop targetDir onlyFiles operations (initValidation f2 out) in
  validationErrors st1 = validationErrors st2
  /\ console st1 = console st2
  /\ newNames st1 = newNames st2
  /\ fs st1 = f1 /\ fs st2 = f2.
Proof.
  intros Hagree st1 st2. subst st1 st2. unfold validationLoop.
  rewrite !validateFrom_init. simpl.
  rewrite (planWarnings_ext operations f1 f2 operations Hagree).
  repeat split; reflexivity.
Qed.

(** C9. An operation that renames a file to its own name, the name being
    in the snapshot and not the target of an earlier operation, adds no
    validation error and writes no warning, whether or not the name is on
    disk: [find] runs over the whole plan and meets the operation itself. *)
Theorem identity_operation_is_silent operations pre op post (f : FS) out :
  operations = pre ++ op :: post ->
  new op = original op ->
  original op ∈ onlyFiles ->
  (forall o, o ∈ pre -> new o <> new op) ->
  let st := validateFrom targetDir onlyFiles operations pre (initValidation f out) in
  validationErrors (validateOp targetDir onlyFiles operations st op) = validationErrors st
  /\ console (validateOp targetDir onlyFiles operations st op) = console st.
Proof.
  intros Hplan Hid Hknown Hfresh st. subst st. split.
  - rewrite step_errors. rewrite (bool_decide_eq_true_2 _ Hknown).
    rewrite bool_decide_eq_false_2; [by rewrite !app_nil_r|].
    intros Hin. apply list_elem_of_fmap in Hin as (o & Heq & Ho).
    by apply (Hfresh o Ho).
  - rewrite step_console. unfold opWarnings.
    assert (Hfound : truthy (findOriginal operations (new op)) = true).
    { apply findOriginal_truthy. exists op. split; [|done].
      rewrite Hplan. apply elem_of_app. right. left. }
    rewrite Hfound, andb_false_r. by rewrite app_nil_r.
Qed.

(** C10. Every operation registers its [new], valid or not: after the
    operations [pre] the set [newNames] holds the [new] of each of them,
    and an operation whose [new] is that of an earlier operation gets the
    duplicate-target error also when that earlier operation had an unknown
    original, whose own error is in the report as well. *)
Theorem duplicate_flagged_after_unknown_original
    operations pre op post earlier (f : FS) out :
  operations = pre ++ op :: post ->
  earlier ∈ pre ->
  original earlier ∉ onlyFiles ->
  new earlier = new op ->
  let st := validateFrom targetDir onlyFiles operations pre (initValidation f out) in
  newNames st = list_to_set (map new pre)
  /\ unknownOriginalMsg earlier ∈ validationErrors st
  /\ validationErrors (validateOp targetDir onlyFiles operations st op) =
       validationErrors st
       ++ (if bool_decide (original op ∈ onlyFiles) then [] else [unknownOriginalMsg op])
       ++ [duplicateTargetMsg op].
Proof.
  intros _ Hin Hunknown Hsame st. split; [|split].
  - subst st. rewrite validateFrom_init. simpl. by rewrite (right_id_L ∅ (∪)).
  - subst st. rewrite validateFrom_init. simpl. by apply unknown_in_planErrors.
  - subst st. rewrite step_errors.
    rewrite (bool_decide_eq_true_2 (new op ∈ map new pre)); [reflexivity|].
    rewrite <- Hsame. by apply list_elem_of_fmap_2.
Qed.

End Validation.

(** ** The execution loop, step by step *)

Section Execution.

Context {FS IOError : Type} `{!Filesystem FS IOError}.
Variable targetDir : string.

Implicit Types (st : State FS IOError) (op : RenameOperation).
Implicit Types (operations pre post : list RenameOperation).

(** One turn of the loop: the filesystem is what [fs.rename] left, and
    the console has one more line, which tells how the call ended. *)
Lemma renameOp_eq st op :
  renameOp targetDir st op =
  mkState (renameCall targetDir (fs st) op).1
    (console st ++ [renameEntry op (renameCall targetDir (fs st) op).2])
    (validationErrors st) (newNames st).
Proof.
  unfold renameOp, renameCall.
  destruct (fs_rename (fs st) _ _) as [f [err|]]; reflexivity.
Qed.

Lemma executionLoop_nil st : executionLoop targetDir [] st = st.
Proof. reflexivity. Qed.

Lemma executionLoop_cons operations op st :
  executionLoop targetDir (op :: operations) st =
  executionLoop targetDir operations (renameOp targetDir st op).
Proof. reflexivity. Qed.

Lemma executionLoop_app pre post st :
  executionLoop targetDir (pre ++ post) st =
  executionLoop targetDir post (executionLoop targetDir pre st).
Proof. unfold executionLoop. apply fold_left_app. Qed.

(** The loop writes one line for each operation, in plan order: the line
    of the call made on the filesystem the operations before it left. *)
Lemma execution_outcomes operations st :
  exists outs,
    console (executionLoop targetDir operations st) = console st ++ outs
    /\ length outs = length operations
    /\ forall i op, operations !! i = Some op ->
         outs !! i =
         Some (renameEntry op
                 (renameCall targetDir
                    (fs (executionLoop targetDir (take i operations) st)) op).2).
Proof.
  revert st; induction operations as [|o rest IH]; intros st.
  - exists []. simpl. rewrite app_nil_r. repeat split. intros i op Hi. discriminate.
  - destruct (IH (renameOp targetDir st o)) as (outs & Hout & Hlen & Hnth).
    exists (renameEntry o (renameCall targetDir (fs st) o).2 :: outs).
    split; [|split].
    + rewrite executionLoop_cons, Hout, renameOp_eq. simpl.
      by rewrite <- app_assoc.
    + simpl. by rewrite Hlen.
    + intros [|i] op Hi; simpl in *.
      * by inversion Hi.
      * rewrite (Hnth i op Hi). reflexivity.
Qed.

(** The filesystem the loop leaves is the one the calls of [fs.rename]
    leave, made in plan order from the filesystem the loop starts on. *)
Lemma executionLoop_fs operations st :
  fs (executionLoop targetDir operations st) =
  fsAfterCalls targetDir (fs st) operations.
Proof.
  revert st; induction operations as [|op rest IH]; intros st; [reflexivity|].
  rewrite executionLoop_cons, IH, renameOp_eq. reflexivity.
Qed.

Lemma fsAfterCalls_app (f : FS) pre post :
  fsAfterCalls targetDir f (pre ++ post) =
  fsAfterCalls targetDir (fsAfterCalls targetDir f pre) post.
Proof.
  revert f; induction pre as [|op rest IH]; intros f; [reflexivity|].
  simpl. apply IH.
Qed.

(** The lines of the loop, each tied to the call of [fs.rename] it
    reports: the call for its operation on the filesystem the calls for
    the operations before it left. *)
Lemma execution_lines operations st :
  exists outs,
    console (executionLoop targetDir operations st) = console st ++ outs
    /\ length outs = length operations
    /\ forall i op, operations !! i = Some op ->
         outs !! i =
         Some (renameEntry op
                 (renameCall targetDir
                    (fsAfterCalls targetDir (fs st) (take i operations)) op).2).
Proof.
  destruct (execution_outcomes operations st) as (outs & Hout & Hlen & Hnth).
  exists outs. split; [exact Hout|]. split; [exact Hlen|].
  intros i op Hi. rewrite (Hnth i op Hi), executionLoop_fs. reflexivity.
Qed.

(** C5. Let the call of [fs.rename] for operation [k], made after the
    calls for the operations before it, fail with [err] and leave the
    filesystem [f]. When the loop reaches operation [k] the filesystem is
    the one those earlier calls left: the operations before [k] have been
    applied. The loop writes the failure with [err], undoes nothing, and
    goes on from [f]: the filesystem at the end is the one the calls for
    the operations after [k] leave, made in plan order from [f]. The
    console has one line for each operation of the plan, in plan order,
    and each line tells how the call for its operation ended, renamed or
    failed with the error thrown: no operation is left out. *)
Theorem failed_rename_does_not_stop_the_batch operations st k op (f : FS) err :
  operations !! k = Some op ->
  renameCall targetDir (fsAfterCalls targetDir (fs st) (take k operations)) op =
    (f, Some err) ->
  let before := executionLoop targetDir (take k operations) st in
  let after := executionLoop targetDir (take (S k) operations) st in
  let final := executionLoop targetDir operations st in
  fs before = fsAfterCalls targetDir (fs st) (take k operations)
  /\ fs after = f
  /\ console after = console before ++ [failedEntry op err]
  /\ after = emit (failedEntry op err) (setFs f before)
  /\ final = executionLoop targetDir (drop (S k) operations) after
  /\ fs final = fsAfterCalls targetDir f (drop (S k) operations)
  /\ exists outs,
       console final = console st ++ outs
       /\ length outs = length operations
       /\ outs !! k = Some (failedEntry op err)
       /\ forall i o, operations !! i = Some o ->
            outs !! i =
            Some (renameEntry o
                    (renameCall targetDir
                       (fsAfterCalls targetDir (fs st) (take i operations)) o).2).
Proof.
  intros Hk Hcall before after final.
  assert (Hbefore : fs before = fsAfterCalls targetDir (fs st) (take k operations))
    by apply executionLoop_fs.
  assert (Hstep : after = emit (failedEntry op err) (setFs f before)).
  { subst after before.
    rewrite (take_S_r _ _ _ Hk), executionLoop_app, executionLoop_cons.
    rewrite executionLoop_nil, renameOp_eq, executionLoop_fs, Hcall. reflexivity. }
  assert (Hrest : final = executionLoop targetDir (drop (S k) operations) after).
  { subst final after. by rewrite <- executionLoop_app, take_drop. }
  split; [exact Hbefore|]. split; [by rewrite Hstep|]. split; [by rewrite Hstep|].
  split; [exact Hstep|]. split; [exact Hrest|]. split.
  - rewrite Hrest, executionLoop_fs, Hstep. reflexivity.
  - destruct (execution_lines operations st) as (outs & Hout & Hlen & Hnth).
    exists outs. split; [exact Hout|]. split; [exact Hlen|]. split; [|exact Hnth].
    rewrite (Hnth k op Hk), Hcall. reflexivity.
Qed.

(** *** Running the same plan again *)

Section Rerun.

Context `{!RenameLaws FS IOError}.

(** On a filesystem where no [original] of the plan exists, every call
    fails and nothing appears. *)
Lemma execution_without_sources operations st :
  (forall o, o ∈ operations ->
     pathExists (fs st) (path_join targetDir (original o)) = false) ->
  exists errs,
    length errs = length operations
    /\ console (executionLoop targetDir operations st) =
         console st ++ zip_with failedEntry operations errs.
Proof.
  revert st; induction operations as [|op rest IH]; intros st Hgone.
  - exists []. simpl. by rewrite app_nil_r.
  - assert (Hop : op ∈ op :: rest) by left.
    pose proof (rename_missing_source (fs st) _ (path_join targetDir (new op))
                  (Hgone op Hop)) as Hfail.
    fold (renameCall targetDir (fs st) op) in Hfail.
    destruct (IH (renameOp targetDir st op)) as (errs & Hlen & Hout).
    { intros o Ho. rewrite renameOp_eq. simpl.
      apply rename_failed_creates_nothing; [exact Hfail|].
      apply Hgone. by right. }
    destruct (renameCall targetDir (fs st) op).2 as [err|] eqn:Hres; [|done].
    exists (err :: errs). split; [simpl; by rewrite Hlen|].
    rewrite executionLoop_cons, Hout, renameOp_eq, Hres. simpl.
    by rewrite <- app_assoc.
Qed.

(** After a run in which every call succeeded, a path that was an
    [original] of the plan, or did not exist before, and is no target of
    the plan, does not exist. *)
Lemma successful_run_removes_sources operations st :
  console (executionLoop targetDir operations st) =
    console st ++ map appliedEntry operations ->
  (forall o n, o ∈ operations -> n ∈ operations ->
     path_join targetDir (original o) <> path_join targetDir (new n)) ->
  forall r,
    (r ∈ map (fun o => path_join targetDir (original o)) operations
     \/ pathExists (fs st) r = false) ->
    r ∉ map (fun o => path_join targetDir (new o)) operations ->
    pathExists (fs (executionLoop targetDir operations st)) r = false.
Proof.
  revert st; induction operations as [|op rest IH]; intros st Hok Hapart r Hr Hnot.
  - simpl. destruct Hr as [Hr|Hr]; [|exact Hr]. by apply elem_of_nil in Hr.
  - rewrite executionLoop_cons in *.
    destruct (execution_outcomes rest (renameOp targetDir st op))
      as (outs & Hout & Hlen & _).
    rewrite Hout, renameOp_eq in Hok. simpl in Hok.
    rewrite <- app_assoc in Hok. apply app_inv_head in Hok. simpl in Hok.
    injection Hok as Hentry Houts.
    assert (Hres : (renameCall targetDir (fs st) op).2 = None).
    { destruct (renameCall targetDir (fs st) op).2; [discriminate | reflexivity]. }
    assert (Hop : op ∈ op :: rest) by left.
    apply IH.
    + rewrite Hout, Houts. reflexivity.
    + intros o n Ho Hn. apply Hapart; by right.
    + simpl in Hr, Hnot. apply not_elem_of_cons in Hnot as [Hne Hnot].
      destruct Hr as [Hr|Hr].
      * apply elem_of_cons in Hr as [->|Hr]; [|by left].
        right. rewrite renameOp_eq. simpl.
        apply rename_removes_source; [exact Hres|]. by apply Hapart.
      * right. rewrite renameOp_eq. simpl.
        by apply rename_creates_only_target.
    + simpl in Hnot. by apply not_elem_of_cons in Hnot as [_ Hnot].
Qed.

(** C6. Let a run of the plan succeed on every operation, and let no
    [original] of the plan be the [new] of an operation of the plan.
    Then no [original] exists any more, and a second run of the same plan
    right after the first writes a failure for every operation, in plan
    order, and never a "Renamed" line. *)
Theorem rerun_after_success_fails_every_operation operations st :
  let st1 := executionLoop targetDir operations st in
  console st1 = console st ++ map appliedEntry operations ->
  (forall o n, o ∈ operations -> n ∈ operations ->
     path_join targetDir (original o) <> path_join targetDir (new n)) ->
  (forall o, o ∈ operations ->
     pathExists (fs st1) (path_join targetDir (original o)) = false)
  /\ exists errs,
       length errs = length operations
       /\ console (executionLoop targetDir operations st1) =
            console st1 ++ zip_with failedEntry operations errs.
Proof.
  intros st1 Hok Hapart.
  assert (Hgone : forall o, o ∈ operations ->
            pathExists (fs st1) (path_join targetDir (original o)) = false).
  { intros o Ho. subst st1.
    apply successful_run_removes_sources; [exact Hok | exact Hapart | |].
    - left. by apply (list_elem_of_fmap_2 (fun o => path_join targetDir (original o))).
    - intros Hin. apply list_elem_of_fmap in Hin as (n & Heq & Hn).
      by apply (Hapart o n Ho Hn). }
  split; [exact Hgone|].
  by apply execution_without_sources.
Qed.

End Rerun.

End Execution.

(** ** The concrete directory obeys the laws of rename *)

Module FlatDirFacts.

Import FlatDir.

Lemma exists_false (d : Dir) (p : string) : exists_ d p = false <-> d !! p = None.
Proof.
  unfold exists_. rewrite bool_decide_eq_false, <- eq_None_not_Some. reflexivity.
Qed.

Lemma rename_result (d : Dir) (p q : string) :
  (rename d p q).2 = None <-> is_Some (d !! p).
Proof.
  unfold rename. destruct (d !! p) as [c|] eqn:E.
  - destruct (decide (p = q)); simpl; split; eauto.
  - simpl. split; [discriminate | intros [c Hc]; discriminate].
Qed.

#[global] Instance flatdir_laws : RenameLaws Dir Errno.
Proof.
  split; simpl.
  - intros d p q Hp Hnone. apply rename_result in Hnone as [c Hc].
    apply exists_false in Hp. congruence.
  - intros d p q r Hfail Hr. unfold rename in *.
    destruct (d !! p) as [c|]; [|exact Hr].
    destruct (decide (p = q)); simpl in Hfail; congruence.
  - intros d p q Hok Hne. apply exists_false. unfold rename in *.
    destruct (d !! p) as [c|]; [|discriminate].
    destruct (decide (p = q)); [contradiction|]. simpl.
    rewrite lookup_insert_ne by congruence. apply lookup_delete_eq.
  - intros d p q r Hok Hne Hr. apply exists_false. apply exists_false in Hr.
    unfold rename in *.
    destruct (d !! p) as [c|]; [|discriminate].
    destruct (decide (p = q)); simpl; [exact Hr|].
    rewrite lookup_insert_ne by congruence.
    apply lookup_delete_None. by right.
Qed.

End FlatDirFacts.

(** ** The statements at work on the concrete directory *)

Module Runs.

Import FlatDir Examples.

(** C2, the claim as stated fails: in the plan of the specification's
    scenario only the second operation is flagged, so there is one
    duplicate-target error and not two. *)
Lemma first_occurrence_not_flagged :
  validationErrors (validated ["a.txt"; "b.txt"] planDuplicate diskAB) =
    ["Duplicate target filename: x.txt"]
  /\ length (List.filter isDuplicateTargetError
              (validationErrors (validated ["a.txt"; "b.txt"] planDuplicate diskAB))) <> 2.
Proof. split; [reflexivity | vm_compute; discriminate]. Qed.

(** The second operation of that plan, after the first: it is flagged. *)
Lemma duplicate_flagged_from_second_occurrence_witness :
  let pre := [rename_to "a.txt" "x.txt"] in
  let op := rename_to "b.txt" "x.txt" in
  let st := validateFrom "d" ["a.txt"; "b.txt"] planDuplicate pre (initValidation diskAB []) in
  planDuplicate = pre ++ op :: []
  /\ List.filter isDuplicateTargetError
       (validationErrors (validateOp "d" ["a.txt"; "b.txt"] planDuplicate st op)) =
     List.filter isDuplicateTargetError (validationErrors st)
     ++ (if bool_decide (new op ∈ map new pre) then [duplicateTargetMsg op] else []).
Proof.
  intros pre op st. split; [reflexivity|].
  apply (duplicate_flagged_from_second_occurrence "d" ["a.txt"; "b.txt"]
           planDuplicate pre op [] diskAB []).
  reflexivity.
Defined.

(** C3, the claim as stated fails: both targets of this plan are no
    filename components, one empty and one with a separator, and the
    validation ends without any error. *)
Lemma invalid_names_pass_validation :
  Forall (fun op => invalidComponent (new op) = true) planInvalidNames
  /\ validationErrors (validated ["a.txt"; "b.txt"] planInvalidNames diskAB) = [].
Proof. split; [repeat constructor | reflexivity]. Qed.

(** The operation with the empty target, first of that plan: no error. *)
Lemma invalid_target_name_not_checked_witness :
  let op := rename_to "a.txt" "" in
  let post := [rename_to "b.txt" "sub/b.txt"] in
  let st := validateFrom "d" ["a.txt"; "b.txt"] planInvalidNames [] (initValidation diskAB []) in
  planInvalidNames = [] ++ op :: post
  /\ invalidComponent (new op) = true
  /\ original op ∈ ["a.txt"; "b.txt"]
  /\ (new op ∉ map new [])
  /\ validationErrors (validateOp "d" ["a.txt"; "b.txt"] planInvalidNames st op) =
     validationErrors st.
Proof.
  intros op post st.
  assert (H1 : planInvalidNames = [] ++ op :: post) by reflexivity.
  assert (H2 : invalidComponent (new op) = true) by reflexivity.
  assert (H3 : original op ∈ ["a.txt"; "b.txt"]) by left.
  assert (H4 : new op ∉ map new []) by apply not_elem_of_nil.
  split; [exact H1|]. split; [exact H2|]. split; [exact H3|]. split; [exact H4|].
  exact (invalid_target_name_not_checked "d" ["a.txt"; "b.txt"]
           planInvalidNames [] op post diskAB [] H1 H2 H3 H4).
Defined.

(** C4, the claim as stated fails: the target of the only operation of
    this plan exists on disk and no other operation has it as [original],
    yet no warning is written, because the operation itself has. *)
Lemma own_original_suppresses_warning :
  pathExists diskA (path_join "d" (new (rename_to "a.txt" "a.txt"))) = true
  /\ (forall o, o ∈ planIdentity -> o <> rename_to "a.txt" "a.txt" ->
        original o <> "a.txt")
  /\ console (validated ["a.txt"] planIdentity diskA) = [].
Proof.
  split; [reflexivity|]. split; [|reflexivity].
  intros o Ho Hother. each_member Ho. contradiction.
Qed.

(** Renaming onto a file that exists and is no original of the plan: the
    warning is written. *)
Lemma target_exists_warns_without_blocking_witness :
  let op := rename_to "a.txt" "out.txt" in
  let st := validateFrom "d" ["a.txt"] planOntoExisting [] (initValidation diskAOut []) in
  let final := validationLoop "d" ["a.txt"] planOntoExisting (initValidation diskAOut []) in
  pathExists diskAOut (path_join "d" (new op)) = true
  /\ (forall o, o ∈ planOntoExisting -> original o <> new op)
  /\ console (validateOp "d" ["a.txt"] planOntoExisting st op) =
       console st ++ [ConsoleWarn (targetExistsMsg op)]
  /\ ConsoleWarn (targetExistsMsg op) ∈ console final
  /\ ((forall o, o ∈ planOntoExisting -> original o ∈ ["a.txt"]) ->
      NoDup (map new planOntoExisting) ->
      validationErrors final = []
      /\ validationGate false final = (true, final)
      /\ validateAndExecute "d" ["a.txt"] false true planOntoExisting diskAOut [] =
           executionPhase "d" true planOntoExisting final).
Proof.
  intros op st final.
  assert (H1 : planOntoExisting = [] ++ op :: []) by reflexivity.
  assert (H2 : pathExists diskAOut (path_join "d" (new op)) = true) by reflexivity.
  assert (H3 : forall o, o ∈ planOntoExisting -> original o <> new op).
  { intros o Ho. each_member Ho. discriminate. }
  split; [exact H2|]. split; [exact H3|].
  exact (target_exists_warns_without_blocking "d" ["a.txt"]
           planOntoExisting [] op [] diskAOut [] false true H1 H2 H3).
Defined.

(** The second part of C4 at the same plan: its hypotheses hold, so the
    plan, whose only issue is the existing target, has no error and passes
    the gate. *)
Lemma plan_onto_existing_target_passes :
  let final := validationLoop "d" ["a.txt"] planOntoExisting (initValidation diskAOut []) in
  console final = [ConsoleWarn "Warning: Target file out.txt already exists."]
  /\ validationErrors final = []
  /\ validationGate false final = (true, final)
  /\ console (validateAndExecute "d" ["a.txt"] false true planOntoExisting diskAOut []) =
       [ConsoleWarn "Warning: Target file out.txt already exists.";
        ConsoleLog "Renamed: a.txt -> out.txt";
        ConsoleLog "Done."].
Proof. split; [reflexivity|]. split; [reflexivity|]. split; reflexivity. Qed.

(** C7, the claim as stated fails: the only operation of this plan has an
    unknown original and an existing target. In check order the error
    comes first; on the console the warning does, written by the loop
    before the gate lists the errors. *)
Lemma warning_shown_before_error :
  shown false ["a.txt"] planUnknownOntoExisting diskAOut =
    [ConsoleWarn "Warning: Target file out.txt already exists.";
     ConsoleError "Validation Errors:";
     ConsoleError "- Original file not found: c.txt"]
  /\ reportInCheckOrder "d" ["a.txt"] planUnknownOntoExisting diskAOut ∅
       planUnknownOntoExisting =
     [ConsoleError "- Original file not found: c.txt";
      ConsoleWarn "Warning: Target file out.txt already exists."]
  /\ issueLines (shown false ["a.txt"] planUnknownOntoExisting diskAOut) <>
     reportInCheckOrder "d" ["a.txt"] planUnknownOntoExisting diskAOut ∅
       planUnknownOntoExisting.
Proof. split; [reflexivity|]. split; [reflexivity|]. vm_compute. discriminate. Qed.

(** Two directories that differ in a file the plan does not name. *)
Lemma validation_deterministic_witness :
  let st1 := validationLoop "d" ["a.txt"] planOntoExisting (initValidation diskAOut []) in
  let st2 := validationLoop "d" ["a.txt"] planOntoExisting (initValidation diskAOutNote []) in
  (forall op, op ∈ planOntoExisting ->
     pathExists diskAOut (path_join "d" (new op)) =
     pathExists diskAOutNote (path_join "d" (new op)))
  /\ validationErrors st1 = validationErrors st2
  /\ console st1 = console st2
  /\ newNames st1 = newNames st2
  /\ fs st1 = diskAOut /\ fs st2 = diskAOutNote.
Proof.
  intros st1 st2.
  assert (H1 : forall op, op ∈ planOntoExisting ->
            pathExists diskAOut (path_join "d" (new op)) =
            pathExists diskAOutNote (path_join "d" (new op))).
  { intros op Hop. each_member Hop. reflexivity. }
  split; [exact H1|].
  exact (validation_deterministic "d" ["a.txt"] planOntoExisting
           diskAOut diskAOutNote [] H1).
Defined.

(** Renaming [a.txt] to [a.txt], the file being on disk. *)
Lemma identity_operation_is_silent_witness :
  let op := rename_to "a.txt" "a.txt" in
  let st := validateFrom "d" ["a.txt"] planIdentity [] (initValidation diskA []) in
  pathExists diskA (path_join "d" (new op)) = true
  /\ new op = original op
  /\ original op ∈ ["a.txt"]
  /\ validationErrors (validateOp "d" ["a.txt"] planIdentity st op) = validationErrors st
  /\ console (validateOp "d" ["a.txt"] planIdentity st op) = console st.
Proof.
  intros op st.
  assert (H1 : planIdentity = [] ++ op :: []) by reflexivity.
  assert (H2 : new op = original op) by reflexivity.
  assert (H3 : original op ∈ ["a.txt"]) by left.
  assert (H4 : forall o : RenameOperation, o ∈ [] -> new o <> new op).
  { intros o Ho. by apply elem_of_nil in Ho. }
  split; [reflexivity|]. split; [exact H2|]. split; [exact H3|].
  exact (identity_operation_is_silent "d" ["a.txt"] planIdentity [] op []
           diskA [] H1 H2 H3 H4).
Defined.

(** The ghost original comes first and registers [x.txt]; the second
    operation is flagged. *)
Lemma duplicate_flagged_after_unknown_original_witness :
  let earlier := rename_to "ghost.txt" "x.txt" in
  let op := rename_to "b.txt" "x.txt" in
  let st := validateFrom "d" ["a.txt"; "b.txt"] planGhostDuplicate [earlier]
              (initValidation diskAB []) in
  (original earlier ∉ ["a.txt"; "b.txt"])
  /\ new earlier = new op
  /\ newNames st = list_to_set (map new [earlier])
  /\ unknownOriginalMsg earlier ∈ validationErrors st
  /\ validationErrors (validateOp "d" ["a.txt"; "b.txt"] planGhostDuplicate st op) =
       validationErrors st
       ++ (if bool_decide (original op ∈ ["a.txt"; "b.txt"])
           then [] else [unknownOriginalMsg op])
       ++ [duplicateTargetMsg op].
Proof.
  intros earlier op st.
  assert (H1 : planGhostDuplicate = [earlier] ++ op :: []) by reflexivity.
  assert (H2 : earlier ∈ [earlier]) by left.
  assert (H3 : original earlier ∉ ["a.txt"; "b.txt"]) by compute_done.
  assert (H4 : new earlier = new op) by reflexivity.
  split; [exact H3|]. split; [exact H4|].
  exact (duplicate_flagged_after_unknown_original "d" ["a.txt"; "b.txt"]
           planGhostDuplicate [earlier] op [] earlier diskAB [] H1 H2 H3 H4).
Defined.

(** The plan with the duplicate after the unknown original, run as a
    whole: both errors are in the report. *)
Lemma ghost_duplicate_report :
  validationErrors (validated ["a.txt"; "b.txt"] planGhostDuplicate diskAB) =
    ["Original file not found: ghost.txt"; "Duplicate target filename: x.txt"].
Proof. reflexivity. Qed.

(** A run with a failure in the middle: the first and the third operation
    are applied, the second is reported with the error of the call. *)
Lemma one_failure_run :
  console (executed planOneFailure diskAB) =
    [ConsoleLog "Renamed: a.txt -> x.txt";
     ConsoleErrorWith "Failed to rename missing.txt:" ENOENT;
     ConsoleLog "Renamed: b.txt -> z.txt"]
  /\ fs (executed planOneFailure diskAB) = dirOf [("x.txt", "A"); ("z.txt", "B")].
Proof. split; [reflexivity | by vm_compute]. Qed.

(** The second operation of that run is the one whose call fails: it
    finds [a.txt] renamed to [x.txt], and [b.txt] is renamed after it. *)
Lemma failed_rename_does_not_stop_the_batch_witness :
  let st := initValidation diskAB [] in
  let op := rename_to "missing.txt" "y.txt" in
  let f := dirOf [("x.txt", "A"); ("b.txt", "B")] in
  let before := executionLoop "d" (take 1 planOneFailure) st in
  let after := executionLoop "d" (take 2 planOneFailure) st in
  let final := executionLoop "d" planOneFailure st in
  planOneFailure !! 1 = Some op
  /\ renameCall "d" (fsAfterCalls "d" (fs st) (take 1 planOneFailure)) op =
       (f, Some ENOENT)
  /\ fsAfterCalls "d" f (drop 2 planOneFailure) =
       dirOf [("x.txt", "A"); ("z.txt", "B")]
  /\ fs before = fsAfterCalls "d" (fs st) (take 1 planOneFailure)
  /\ fs after = f
  /\ console after = console before ++ [failedEntry op ENOENT]
  /\ after = emit (failedEntry op ENOENT) (setFs f before)
  /\ final = executionLoop "d" (drop 2 planOneFailure) after
  /\ fs final = fsAfterCalls "d" f (drop 2 planOneFailure)
  /\ exists outs,
       console final = console st ++ outs
       /\ length outs = length planOneFailure
       /\ outs !! 1 = Some (failedEntry op ENOENT)
       /\ forall i o, planOneFailure !! i = Some o ->
            outs !! i =
            Some (renameEntry o
                    (renameCall "d"
                       (fsAfterCalls "d" (fs st) (take i planOneFailure)) o).2).
Proof.
  intros st op f before after final.
  assert (H1 : planOneFailure !! 1 = Some op) by reflexivity.
  assert (H2 : renameCall "d" (fsAfterCalls "d" (fs st) (take 1 planOneFailure)) op
               = (f, Some ENOENT)) by (by vm_compute).
  split; [exact H1|]. split; [exact H2|]. split; [by vm_compute|].
  exact (failed_rename_does_not_stop_the_batch "d" planOneFailure st 1 op
           f ENOENT H1 H2).
Defined.

(** Two renames that succeed, run twice. *)
Lemma rerun_after_success_fails_every_operation_witness :
  let st := initValidation diskAB [] in
  let st1 := executionLoop "d" planTwo st in
  console st1 = console st ++ map appliedEntry planTwo
  /\ (forall o n, o ∈ planTwo -> n ∈ planTwo ->
        path_join "d" (original o) <> path_join "d" (new n))
  /\ (forall o, o ∈ planTwo ->
        pathExists (fs st1) (path_join "d" (original o)) = false)
  /\ exists errs,
       length errs = length planTwo
       /\ console (executionLoop "d" planTwo st1) =
            console st1 ++ zip_with failedEntry planTwo errs.
Proof.
  intros st st1.
  assert (H1 : console st1 = console st ++ map appliedEntry planTwo) by reflexivity.
  assert (H2 : forall o n, o ∈ planTwo -> n ∈ planTwo ->
            path_join "d" (original o) <> path_join "d" (new n)).
  { intros o n Ho Hn. each_member Ho; each_member Hn; discriminate. }
  split; [exact H1|]. split; [exact H2|].
  exact (rerun_after_success_fails_every_operation "d" planTwo st H1 H2).
Defined.

(** The second run of that plan, line by line. *)
Lemma rerun_lines :
  console (executionLoop "d" planTwo (executed planTwo diskAB)) =
    [ConsoleLog "Renamed: a.txt -> x.txt";
     ConsoleLog "Renamed: b.txt -> y.txt";
     ConsoleErrorWith "Failed to rename a.txt:" ENOENT;
     ConsoleErrorWith "Failed to rename b.txt:" ENOENT].
Proof. reflexivity. Qed.

(** Why C6 asks that no [original] be a [new] of the plan: when the
    second operation gives the name of the first original to another file,
    the first run succeeds and the first operation of the second run
    succeeds again. *)
Lemma rerun_with_reused_name :
  console (executed planReusedName diskAC) =
    [ConsoleLog "Renamed: a.txt -> b.txt"; ConsoleLog "Renamed: c.txt -> a.txt"]
  /\ console (executionLoop "d" planReusedName
                (initValidation (fs (executed planReusedName diskAC)) [])) =
      [ConsoleLog "Renamed: a.txt -> b.txt";
       ConsoleErrorWith "Failed to rename c.txt:" ENOENT].
Proof. split; reflexivity. Qed.

End Runs.

(** ** More on the validation loop *)

Section ValidationReport.

Context {FS IOError : Type} `{!Filesystem FS IOError}.
Variable targetDir : string.
Variable onlyFiles : list string.

Implicit Types (st : State FS IOError) (op : RenameOperation).
Implicit Types (operations ops pre post : list RenameOperation).



Lemma planErrors_justified seen ops (e : string) :
  e ∈ planErrors onlyFiles seen ops ->
  (exists op, op ∈ ops /\ (original op ∉ onlyFiles) /\ e = unknownOriginalMsg op)
  \/ (exists pre op post,
        ops = pre ++ op :: post
        /\ (new op ∈ seen \/ new op ∈ map new pre)
        /\ e = duplicateTargetMsg op).
Proof.
  revert seen; induction ops as [|op rest IH]; intros seen He; simpl in He.
  - by apply elem_of_nil in He.
  - apply elem_of_app in He as [He|He].
    + unfold opErrors, includes, has in He.
      apply elem_of_app in He as [He|He].
      * destruct (decide (original op ∈ onlyFiles)) as [Hin|Hout].
        -- rewrite (bool_decide_eq_true_2 _ Hin) in He. by apply elem_of_nil in He.
        -- rewrite (bool_decide_eq_false_2 _ Hout) in He. simpl in He.
           apply list_elem_of_singleton in He. left. exists op.
           split; [left|]. by split.
      * destruct (decide (new op ∈ seen)) as [Hs|Hs].
        -- rewrite (bool_decide_eq_true_2 _ Hs) in He.
           apply list_elem_of_singleton in He. right. exists [], op, rest.
           split; [reflexivity|]. split; [by left | exact He].
        -- rewrite (bool_decide_eq_false_2 _ Hs) in He. by apply elem_of_nil in He.
    + apply IH in He as [(o & Ho & Habs & Heq)|(pre & o & post & Hsplit & Hdup & Heq)].
      * left. exists o. split; [by right|]. by split.
      * right. exists (op :: pre), o, post. split; [by rewrite Hsplit|].
        split; [|exact Heq]. destruct Hdup as [Hdup|Hdup].
        -- unfold add in Hdup. apply elem_of_union in Hdup as [Hdup|Hdup].
           ++ apply elem_of_singleton in Hdup. right. rewrite Hdup. simpl. left.
           ++ by left.
        -- right. simpl. by right.
Qed.

Lemma planErrors_length seen ops :
  length (planErrors onlyFiles seen ops)
  + size (list_to_set (map new ops) ∪ seen)
  = length (List.filter (fun op => negb (includes onlyFiles (original op))) ops)
    + length ops + size seen.
Proof.
  revert seen; induction ops as [|op rest IH]; intros seen.
  - simpl. by rewrite (left_id_L ∅ (∪)).
  - simpl. rewrite length_app.
    assert (Hset : ({[new op]} ∪ list_to_set (map new rest)) ∪ seen
                   = list_to_set (map new rest) ∪ add (new op) seen).
    { unfold add. apply set_eq. intros y. rewrite !elem_of_union. tauto. }
    rewrite Hset. specialize (IH (add (new op) seen)).
    assert (Hsize : size (add (new op) seen) + (if has seen (new op) then 1 else 0)
                    = S (size seen)).
    { unfold add, has. destruct (decide (new op ∈ seen)) as [Hs|Hs].
      - rewrite (bool_decide_eq_true_2 _ Hs).
        assert (Hsame : {[new op]} ∪ seen = seen).
        { apply set_eq. intros y. rewrite elem_of_union, elem_of_singleton.
          split; [intros [->|Hy]; assumption | by right]. }
        rewrite Hsame. lia.
      - rewrite (bool_decide_eq_false_2 _ Hs).
        rewrite size_union by (apply disjoint_singleton_l; exact Hs).
        rewrite size_singleton. lia. }
    unfold opErrors. rewrite length_app.
    destruct (includes onlyFiles (original op)); simpl;
      destruct (has seen (new op)); simpl in *; lia.
Qed.

Lemma opErrors_same_members (others : list string) seen op :
  (forall x, x ∈ onlyFiles <-> x ∈ others) ->
  opErrors onlyFiles seen op = opErrors others seen op.
Proof.
  intros Hsame. unfold opErrors, includes.
  by rewrite (bool_decide_ext _ _ (Hsame (original op))).
Qed.

Lemma planErrors_same_members (others : list string) seen ops :
  (forall x, x ∈ onlyFiles <-> x ∈ others) ->
  planErrors onlyFiles seen ops = planErrors others seen ops.
Proof.
  intros Hsame. revert seen; induction ops as [|op rest IH]; intros seen;
    [reflexivity|].
  simpl. by rewrite IH, (opErrors_same_members others).
Qed.

Lemma planWarnings_nil operations (f : FS) ops :
  planWarnings targetDir operations f ops = [] <->
  (forall op, op ∈ ops ->
     pathExists f (path_join targetDir (new op)) = true ->
     exists o, o ∈ operations /\ original o = new op).
Proof.
  unfold planWarnings. induction ops as [|op rest IH]; simpl.
  - split; [|reflexivity]. intros _ op Hop. by apply elem_of_nil in Hop.
  - split.
    + intros Hnil. apply app_eq_nil in Hnil as [Hop Hrest].
      intros o Ho Hex. apply elem_of_cons in Ho as [->|Ho].
      * unfold opWarnings in Hop. rewrite Hex in Hop. simpl in Hop.
        destruct (truthy (findOriginal operations (new op))) eqn:Hfound;
          [|discriminate].
        by apply findOriginal_truthy.
      * by apply (proj1 IH Hrest).
    + intros Hall. apply app_nil. split.
      * unfold opWarnings.
        destruct (pathExists f (path_join targetDir (new op))) eqn:Hex;
          [|reflexivity].
        assert (Hop : op ∈ op :: rest) by left.
        assert (Hfound : truthy (findOriginal operations (new op)) = true).
        { apply findOriginal_truthy. by apply Hall. }
        by rewrite Hfound.
      * apply IH. intros o Ho. apply Hall. by right.
Qed.


(** X2. The loop reports nothing without a reason: every entry of
    [validationErrors] is the unknown-original message of an operation of
    the plan whose [original] is not in the snapshot, or the
    duplicate-target message of an operation of the plan whose [new] is
    that of an operation before it. *)
Theorem validation_errors_are_justified operations (f : FS) out (e : string) :
  e ∈ validationErrors
        (validationLoop targetDir onlyFiles operations (initValidation f out)) ->
  (exists op, op ∈ operations /\ (original op ∉ onlyFiles)
              /\ e = unknownOriginalMsg op)
  \/ (exists pre op post,
        operations = pre ++ op :: post
        /\ new op ∈ map new pre
        /\ e = duplicateTargetMsg op).
Proof.
  unfold validationLoop. rewrite validateFrom_init. simpl. intros He.
  apply planErrors_justified in He
    as [Hunknown|(pre & op & post & Hsplit & Hdup & Heq)]; [by left|].
  right. exists pre, op, post. split; [exact Hsplit|]. split; [|exact Heq].
  destruct Hdup as [Hdup|Hdup]; [|exact Hdup]. by apply not_elem_of_empty in Hdup.
Qed.

(** X3. How many errors the loop collects: one for each operation whose
    [original] is not in the snapshot, and one for each operation beyond
    the number of different [new] names of the plan. At the end
    [newNames] holds these different names. *)
Theorem validation_error_count operations (f : FS) out :
  let final := validationLoop targetDir onlyFiles operations (initValidation f out) in
  newNames final = list_to_set (map new operations)
  /\ length (validationErrors final)
     = length (List.filter (fun op => negb (includes onlyFiles (original op)))
                 operations)
       + (length operations - size (newNames final)).
Proof.
  intros final. subst final. unfold validationLoop.
  rewrite validateFrom_init. simpl.
  rewrite (right_id_L ∅ (∪)). split; [reflexivity|].
  pose proof (planErrors_length ∅ operations) as Hlen.
  rewrite (right_id_L ∅ (∪)), size_empty in Hlen.
  assert (Hle : size (list_to_set (map new operations) : gset string)
                <= length operations).
  { clear Hlen. induction operations as [|op rest IH].
    - change (size (∅ : gset string) <= 0). by rewrite size_empty.
    - simpl map. rewrite list_to_set_cons, size_union_alt, size_singleton.
      assert (Hsub : size (list_to_set (map new rest) ∖ {[new op]} : gset string)
                     <= size (list_to_set (map new rest) : gset string)).
      { apply subseteq_size. intros y Hy.
        apply elem_of_difference in Hy as [Hy _]. exact Hy. }
      simpl length. lia. }
  lia.
Qed.

(** X4. The loop writes no warning at all exactly when every target that
    exists on disk is the [original] of some operation of the plan,
    wherever that operation stands: a swap or a chain of renames raises
    no warning, whatever the order of its operations. *)
Theorem no_warning_iff operations (f : FS) out :
  console (validationLoop targetDir onlyFiles operations (initValidation f out)) = out
  <-> (forall op, op ∈ operations ->
         pathExists f (path_join targetDir (new op)) = true ->
         exists o, o ∈ operations /\ original o = new op).
Proof.
  unfold validationLoop. rewrite validateFrom_init. simpl.
  rewrite <- planWarnings_nil. split.
  - intros Heq. rewrite <- (app_nil_r out) in Heq at 2.
    by apply app_inv_head in Heq.
  - intros ->. apply app_nil_r.
Qed.

(** X5. The snapshot counts through its members only: two snapshots with
    the same names, in any order and with any repetition, give the same
    validation. *)
Theorem validation_same_for_same_members
    (others : list string) operations st :
  (forall x, x ∈ onlyFiles <-> x ∈ others) ->
  validationLoop targetDir onlyFiles operations st =
  validationLoop targetDir others operations st.
Proof.
  intros Hsame. unfold validationLoop. rewrite !validateFrom_eq.
  by rewrite (planErrors_same_members others).
Qed.

End ValidationReport.

(** ** From the validation to the renames *)

Section Consent.

Context {FS IOError : Type} `{!Filesystem FS IOError}.
Variable targetDir : string.

Implicit Types (st : State FS IOError) (op : RenameOperation).
Implicit Types (operations pre post : list RenameOperation).

Lemma validationLoop_fs onlyFiles operations (f : FS) out :
  fs (validationLoop targetDir onlyFiles operations (initValidation f out)) = f.
Proof. unfold validationLoop. by rewrite validateFrom_init. Qed.

Lemma validationGate_result continueAnyway st :
  validationGate continueAnyway st =
  if (0 <? length (validationErrors st))%nat
  then (continueAnyway,
        mkState (fs st)
          (console st ++ ConsoleError "Validation Errors:"
             :: map (fun e => ConsoleError ("- " +:+ e)) (validationErrors st))
          (validationErrors st) (newNames st))
  else (true, st).
Proof.
  unfold validationGate. destruct (0 <? length (validationErrors st))%nat;
    [|reflexivity].
  rewrite printErrors_eq. simpl. by rewrite <- app_assoc.
Qed.

Lemma validationGate_fs continueAnyway st :
  fs (validationGate continueAnyway st).2 = fs st.
Proof.
  rewrite validationGate_result.
  by destruct (0 <? length (validationErrors st))%nat.
Qed.

Lemma validationGate_goes_on continueAnyway st :
  (validationGate continueAnyway st).1 =
  if (0 <? length (validationErrors st))%nat then continueAnyway else true.
Proof.
  rewrite validationGate_result.
  by destruct (0 <? length (validationErrors st))%nat.
Qed.

Lemma validateAndExecute_eq onlyFiles continueAnyway confirm operations (f : FS) out :
  let gate := validationGate continueAnyway
                (validationLoop targetDir onlyFiles operations (initValidation f out)) in
  validateAndExecute targetDir onlyFiles continueAnyway confirm operations f out =
  if gate.1 then executionPhase targetDir confirm operations gate.2 else gate.2.
Proof.
  intros gate. unfold validateAndExecute. fold gate.
  by destruct gate as [[|] st'].
Qed.

(** The filesystem the execution loop leaves depends on the filesystem it
    starts from, not on the console or on the locals of the validation. *)
Lemma executionLoop_fs_only operations st st' :
  fs st = fs st' ->
  fs (executionLoop targetDir operations st) =
  fs (executionLoop targetDir operations st').
Proof.
  revert st st'; induction operations as [|op rest IH]; intros st st' Heq;
    [exact Heq|].
  rewrite !executionLoop_cons. apply IH. rewrite !renameOp_eq. simpl.
  by rewrite Heq.
Qed.

(** The filesystem at the end is the one at the start, unless the
    confirmation was given and the gate was passed; then it is the one
    the execution loop leaves when run on the whole plan. *)
Lemma validateAndExecute_fs onlyFiles continueAnyway confirm operations (f : FS) out :
  let final := validationLoop targetDir onlyFiles operations (initValidation f out) in
  let result := validateAndExecute targetDir onlyFiles continueAnyway confirm
                  operations f out in
  fs result = f
  \/ (confirm = true
      /\ (continueAnyway = true \/ validationErrors final = [])
      /\ fs result = fs (executionLoop targetDir operations (initValidation f out))).
Proof.
  intros final result. subst result. rewrite validateAndExecute_eq. fold final.
  assert (Hfs : fs (validationGate continueAnyway final).2 = f).
  { rewrite validationGate_fs. apply validationLoop_fs. }
  destruct (validationGate continueAnyway final).1 eqn:Hgo; [|by left].
  unfold executionPhase. destruct confirm; simpl; [right | by left].
  split; [reflexivity|]. split.
  - rewrite validationGate_goes_on in Hgo.
    destruct (validationErrors final) as [|e es]; [by right|]. simpl in Hgo. by left.
  - apply executionLoop_fs_only. by rewrite Hfs.
Qed.

Lemma validationLoop_errors_any_console onlyFiles operations (f g : FS) out out' :
  validationErrors (validationLoop targetDir onlyFiles operations (initValidation f out))
  = validationErrors
      (validationLoop targetDir onlyFiles operations (initValidation g out')).
Proof. unfold validationLoop. by rewrite !validateFrom_init. Qed.

(** The program only adds to the console. *)
Lemma validateAndExecute_console onlyFiles continueAnyway confirm operations
    (f : FS) out :
  exists rest,
    console (validateAndExecute targetDir onlyFiles continueAnyway confirm
               operations f out) = out ++ rest.
Proof.
  rewrite validateAndExecute_eq. simpl.
  set (final := validationLoop targetDir onlyFiles operations (initValidation f out)).
  assert (Hfinal : exists r0, console final = out ++ r0).
  { subst final. unfold validationLoop. rewrite validateFrom_init. simpl. eauto. }
  destruct Hfinal as [r0 Hfinal].
  assert (Hgate : exists r1, console (validationGate continueAnyway final).2
                             = out ++ r1).
  { rewrite validationGate_result.
    destruct (0 <? length (validationErrors final))%nat; simpl;
      rewrite Hfinal; [rewrite <- app_assoc|]; eauto. }
  destruct Hgate as [r1 Hgate].
  destruct (validationGate continueAnyway final).1; [|eauto].
  unfold executionPhase. destruct confirm; simpl.
  - destruct (execution_outcomes targetDir operations
                (validationGate continueAnyway final).2) as (outs & Hout & _).
    rewrite Hout, Hgate, <- !app_assoc. eauto.
  - rewrite Hgate, <- app_assoc. eauto.
Qed.


(** X7. A confirmed run attempts the whole plan: when the confirmation
    is given and there is no validation error, or the user chose to
    continue in spite of them, every operation of the plan gets its call
    of [fs.rename], those the validation flagged included. The calls are
    made in plan order, each on the filesystem the call before it left,
    starting from the filesystem [main] found: the filesystem at the end
    is the one these calls leave, and the console gets one line for each
    operation, in plan order, telling how the call for that operation
    ended, and then "Done.". *)
Theorem confirmed_run_attempts_whole_plan
    onlyFiles continueAnyway confirm operations (f : FS) out :
  let final := validationLoop targetDir onlyFiles operations (initValidation f out) in
  let gate := validationGate continueAnyway final in
  let result := validateAndExecute targetDir onlyFiles continueAnyway confirm
                  operations f out in
  confirm = true ->
  continueAnyway = true \/ validationErrors final = [] ->
  fs result = fsAfterCalls targetDir f operations
  /\ exists outs,
       console result = console gate.2 ++ outs ++ [ConsoleLog "Done."]
       /\ length outs = length operations
       /\ forall i op, operations !! i = Some op ->
            outs !! i =
            Some (renameEntry op
                    (renameCall targetDir
                       (fsAfterCalls targetDir f (take i operations)) op).2).
Proof.
  intros final gate result Hconfirm Hgo. subst result.
  rewrite validateAndExecute_eq. fold final. fold gate.
  assert (Hfs : fs gate.2 = f).
  { subst gate. rewrite validationGate_fs. apply validationLoop_fs. }
  assert (Hgate : gate.1 = true).
  { subst gate. rewrite validationGate_goes_on.
    destruct Hgo as [Hca|Hclean]; [rewrite Hca | by rewrite Hclean].
    by destruct (0 <? length (validationErrors final))%nat. }
  rewrite Hgate, Hconfirm. unfold executionPhase. simpl. split.
  - by rewrite executionLoop_fs, Hfs.
  - destruct (execution_lines targetDir operations gate.2)
      as (outs & Hout & Hlen & Hnth).
    exists outs. split; [by rewrite Hout, <- app_assoc|]. split; [exact Hlen|].
    intros i op Hi. rewrite (Hnth i op Hi), Hfs. reflexivity.
Qed.

(** *** What the renames can and cannot do to the directory *)

Section Footprint.

Context `{!RenameLaws FS IOError}.

Lemma absent_path_stays_absent operations st (r : string) :
  pathExists (fs st) r = false ->
  r ∉ map (fun o => path_join targetDir (new o)) operations ->
  pathExists (fs (executionLoop targetDir operations st)) r = false.
Proof.
  revert st; induction operations as [|op rest IH]; intros st Habs Hnot;
    [exact Habs|].
  simpl in Hnot. apply not_elem_of_cons in Hnot as [Hne Hnot].
  rewrite executionLoop_cons. apply IH; [|exact Hnot].
  rewrite renameOp_eq. simpl. unfold renameCall.
  destruct (fs_rename (fs st) (path_join targetDir (original op))
              (path_join targetDir (new op))).2 eqn:Hres.
  - apply rename_failed_creates_nothing; [by rewrite Hres | exact Habs].
  - by apply rename_creates_only_target.
Qed.

(** X8. An operation whose source does not exist when the run starts,
    and is not the target of an operation before it, fails: its call of
    [fs.rename] throws and the loop writes the failure. *)
Theorem missing_source_fails pre op st :
  pathExists (fs st) (path_join targetDir (original op)) = false ->
  (forall o, o ∈ pre ->
     path_join targetDir (new o) <> path_join targetDir (original op)) ->
  exists err,
    (renameCall targetDir (fs (executionLoop targetDir pre st)) op).2 = Some err
    /\ console (executionLoop targetDir (pre ++ [op]) st) =
         console (executionLoop targetDir pre st) ++ [failedEntry op err].
Proof.
  intros Habs Hnot.
  assert (Hgone : pathExists (fs (executionLoop targetDir pre st))
                    (path_join targetDir (original op)) = false).
  { apply absent_path_stays_absent; [exact Habs|].
    intros Hin. apply list_elem_of_fmap in Hin as (o & Heq & Ho).
    by apply (Hnot o Ho). }
  pose proof (rename_missing_source _ _ (path_join targetDir (new op)) Hgone)
    as Hfail.
  fold (renameCall targetDir (fs (executionLoop targetDir pre st)) op) in Hfail.
  destruct (renameCall targetDir (fs (executionLoop targetDir pre st)) op).2
    as [err|] eqn:Hres; [|done].
  exists err. split; [reflexivity|].
  rewrite executionLoop_app, executionLoop_cons, executionLoop_nil.
  by rewrite renameOp_eq, Hres.
Qed.

(** X9. The program creates nothing but targets: a path that does not
    exist at the start and is the target of no operation of the plan does
    not exist at the end, whatever the answers to the two questions and
    however the renames end. *)
Theorem only_targets_are_created
    onlyFiles continueAnyway confirm operations (f : FS) out (r : string) :
  pathExists f r = false ->
  r ∉ map (fun o => path_join targetDir (new o)) operations ->
  pathExists
    (fs (validateAndExecute targetDir onlyFiles continueAnyway confirm
           operations f out)) r = false.
Proof.
  intros Habs Hnot.
  destruct (validateAndExecute_fs onlyFiles continueAnyway confirm operations f out)
    as [Heq|(_ & _ & Heq)]; rewrite Heq; [exact Habs|].
  by apply absent_path_stays_absent.
Qed.

End Footprint.

Section Kept.

Context `{!RenameKeeps FS IOError}.

Lemma present_path_stays_present operations st (r : string) :
  pathExists (fs st) r = true ->
  r ∉ map (fun o => path_join targetDir (original o)) operations ->
  pathExists (fs (executionLoop targetDir operations st)) r = true.
Proof.
  revert st; induction operations as [|op rest IH]; intros st Hex Hnot;
    [exact Hex|].
  simpl in Hnot. apply not_elem_of_cons in Hnot as [Hne Hnot].
  rewrite executionLoop_cons. apply IH; [|exact Hnot].
  rewrite renameOp_eq. simpl. unfold renameCall.
  by apply rename_keeps_others.
Qed.

(** X10. The program removes nothing but sources: a path that exists at
    the start and is the [original] of no operation of the plan still
    exists at the end, whatever the answers and however the renames
    end. *)
Theorem only_sources_are_removed
    onlyFiles continueAnyway confirm operations (f : FS) out (r : string) :
  pathExists f r = true ->
  r ∉ map (fun o => path_join targetDir (original o)) operations ->
  pathExists
    (fs (validateAndExecute targetDir onlyFiles continueAnyway confirm
           operations f out)) r = true.
Proof.
  intros Hex Hnot.
  destruct (validateAndExecute_fs onlyFiles continueAnyway confirm operations f out)
    as [Heq|(_ & _ & Heq)]; rewrite Heq; [exact Hex|].
  by apply present_path_stays_present.
Qed.

End Kept.

End Consent.

(** ** The snapshot and the way to the validation *)

Section Snapshot.

Context {FS IOError : Type} `{!Filesystem FS IOError} `{!Outside FS IOError}.
Variable targetDir : string.

Implicit Types (op : RenameOperation) (operations : list RenameOperation).
Implicit Types (files names : list string) (stats : list FileStat).

Lemma statAll_returned (f : FS) files stats :
  statAll f targetDir files = Returned stats ->
  map name stats = files
  /\ Forall (fun s => statIsFile f (path_join targetDir (name s)) = Returned (isFile s))
       stats.
Proof.
  revert stats; induction files as [|entry rest IH]; intros stats Hall; simpl in Hall.
  - injection Hall as <-. split; [reflexivity | constructor].
  - destruct (statIsFile f (path_join targetDir entry)) as [e|b] eqn:Hstat;
      [discriminate|].
    destruct (statAll f targetDir rest) as [e|stats'] eqn:Hrest; [discriminate|].
    injection Hall as <-. destruct (IH stats' eq_refl) as [Hnames Hstats].
    split; [simpl; by rewrite Hnames|].
    constructor; [exact Hstat | exact Hstats].
Qed.

Lemma statAll_threw (f : FS) files (e : IOError) :
  statAll f targetDir files = Threw e ->
  exists entry, entry ∈ files /\ statIsFile f (path_join targetDir entry) = Threw e.
Proof.
  induction files as [|entry rest IH]; intros Hall; simpl in Hall; [discriminate|].
  destruct (statIsFile f (path_join targetDir entry)) as [e'|b] eqn:Hstat.
  - injection Hall as ->. exists entry. split; [left | exact Hstat].
  - destruct (statAll f targetDir rest) as [e'|stats'] eqn:Hrest; [|discriminate].
    injection Hall as ->. destruct (IH eq_refl) as (n & Hn & Hthrew).
    exists n. split; [by right | exact Hthrew].
Qed.

Lemma statAll_fails (f : FS) files entry (e0 : IOError) :
  entry ∈ files ->
  statIsFile f (path_join targetDir entry) = Threw e0 ->
  exists e, statAll f targetDir files = Threw e.
Proof.
  intros Hin Hthrew. induction Hin as [entry rest|entry other rest _ IH]; simpl.
  - rewrite Hthrew. eauto.
  - destruct (statIsFile f (path_join targetDir other)) as [e'|b]; [eauto|].
    destruct (IH Hthrew) as [e He]. rewrite He. eauto.
Qed.

Lemma files_sublist stats :
  map name (List.filter isFile stats) `sublist_of` map name stats.
Proof.
  induction stats as [|s rest IH]; simpl; [constructor|].
  destruct (isFile s); simpl; by constructor.
Qed.

Lemma files_member (f : FS) stats (n : string) :
  Forall (fun s => statIsFile f (path_join targetDir (name s)) = Returned (isFile s))
    stats ->
  n ∈ map name (List.filter isFile stats) <->
  n ∈ map name stats /\ statIsFile f (path_join targetDir n) = Returned true.
Proof.
  intros Hstats. rewrite Forall_forall in Hstats. split.
  - intros Hin. apply list_elem_of_fmap in Hin as (s & -> & Hs).
    apply list_elem_of_In, List.filter_In in Hs as [Hs Hfile].
    apply list_elem_of_In in Hs. split; [by apply list_elem_of_fmap_2|].
    rewrite (Hstats s Hs). by rewrite Hfile.
  - intros [Hin Hstat]. apply list_elem_of_fmap in Hin as (s & -> & Hs).
    apply list_elem_of_fmap_2. apply list_elem_of_In, List.filter_In.
    split; [by apply list_elem_of_In|].
    rewrite (Hstats s Hs) in Hstat. by injection Hstat.
Qed.

Lemma readOnlyFiles_returned (f : FS) names :
  readOnlyFiles f targetDir = Returned names ->
  exists files stats,
    readdir f targetDir = Returned files
    /\ statAll f targetDir files = Returned stats
    /\ names = map name (List.filter isFile stats).
Proof.
  unfold readOnlyFiles. intros Hread.
  destruct (readdir f targetDir) as [e|files]; [discriminate|].
  destruct (statAll f targetDir files) as [e|stats] eqn:Hall; [discriminate|].
  injection Hread as <-. by exists files, stats.
Qed.

(** X11. When the snapshot is taken, it holds the entries of the
    directory listing that [fs.stat] finds to be files, and only them, in
    the order of the listing; when the listing has no repetition, neither
    has the snapshot. *)
Theorem snapshot_holds_the_files (f : FS) names :
  readOnlyFiles f targetDir = Returned names ->
  exists files,
    readdir f targetDir = Returned files
    /\ names `sublist_of` files
    /\ (forall n, n ∈ names <->
          n ∈ files /\ statIsFile f (path_join targetDir n) = Returned true)
    /\ (NoDup files -> NoDup names).
Proof.
  intros Hread.
  apply readOnlyFiles_returned in Hread as (files & stats & Hdir & Hall & ->).
  apply statAll_returned in Hall as [Hnames Hstats].
  exists files. split; [exact Hdir|].
  assert (Hsub : map name (List.filter isFile stats) `sublist_of` files).
  { rewrite <- Hnames. apply files_sublist. }
  split; [exact Hsub|]. split.
  - intros n. rewrite <- Hnames. by apply files_member.
  - intros Hnd. exact (sublist_NoDup _ _ Hnd Hsub).
Qed.

(** X12. One entry that cannot be read stops the run: when [fs.stat]
    throws for an entry of the listing, the program writes "An error
    occurred:" with the error of such an entry, and nothing else happens:
    no file is renamed. *)
Theorem unreadable_entry_stops_the_run
    apiKey renamePrompt continueAnyway confirm (f : FS) files entry (e0 : IOError) :
  truthyString apiKey = true ->
  readdir f targetDir = Returned files ->
  entry ∈ files ->
  statIsFile f (path_join targetDir entry) = Threw e0 ->
  exists e culprit,
    culprit ∈ files
    /\ statIsFile f (path_join targetDir culprit) = Threw e
    /\ mainBody apiKey targetDir renamePrompt continueAnyway confirm f =
         (f, [ConsoleErrorWith "An error occurred:" e]).
Proof.
  intros Hkey Hdir Hin Hthrew.
  destruct (statAll_fails f files entry e0 Hin Hthrew) as [e He].
  destruct (statAll_threw f files e He) as (culprit & Hc & Hce).
  exists e, culprit. split; [exact Hc|]. split; [exact Hce|].
  unfold mainBody, readOnlyFiles. by rewrite Hkey, Hdir, He.
Qed.

(** X13. Only regular files can be renamed without an error: an
    operation whose [original] is found by [fs.stat] not to be a file, a
    subdirectory for one, is reported as an unknown original when the plan
    is validated against the snapshot. *)
Theorem non_file_original_is_unknown (f : FS) names operations op out :
  readOnlyFiles f targetDir = Returned names ->
  op ∈ operations ->
  statIsFile f (path_join targetDir (original op)) = Returned false ->
  unknownOriginalMsg op ∈
    validationErrors
      (validationLoop targetDir names operations (initValidation f out)).
Proof.
  intros Hread Hop Hstat.
  apply readOnlyFiles_returned in Hread as (files & stats & Hdir & Hall & ->).
  apply statAll_returned in Hall as [_ Hstats].
  unfold validationLoop. rewrite validateFrom_init. simpl.
  apply unknown_in_planErrors; [exact Hop|].
  intros Hin. apply (files_member f stats _ Hstats) in Hin as [_ Hfile].
  congruence.
Qed.

Lemma statAll_no_file (f : FS) files :
  (forall entry, entry ∈ files ->
     statIsFile f (path_join targetDir entry) = Returned false) ->
  exists stats,
    statAll f targetDir files = Returned stats
    /\ List.filter isFile stats = [].
Proof.
  induction files as [|entry rest IH]; intros Hnone; simpl.
  - by exists [].
  - assert (Hentry : entry ∈ entry :: rest) by left.
    rewrite (Hnone entry Hentry).
    destruct IH as (stats & Hall & Hfilter).
    { intros other Hother. apply Hnone. by right. }
    rewrite Hall. exists (mkFileStat entry false :: stats). by split.
Qed.

(** X16. A directory without a regular file, empty or holding only
    entries that are no files, ends the run at once: the program writes
    "No files found in the target directory." and nothing else, and
    renames nothing. *)
Theorem directory_without_files_ends_the_run
    apiKey renamePrompt continueAnyway confirm (f : FS) files :
  truthyString apiKey = true ->
  readdir f targetDir = Returned files ->
  (forall entry, entry ∈ files ->
     statIsFile f (path_join targetDir entry) = Returned false) ->
  mainBody apiKey targetDir renamePrompt continueAnyway confirm f =
    (f, [ConsoleLog "No files found in the target directory."]).
Proof.
  intros Hkey Hdir Hnone.
  destruct (statAll_no_file f files Hnone) as (stats & Hall & Hfilter).
  unfold mainBody, readOnlyFiles. by rewrite Hkey, Hdir, Hall, Hfilter.
Qed.

Lemma showProposals_eq operations (out : list (ConsoleEntry IOError)) :
  showProposals operations out =
  out ++ ConsoleLog (lineFeed +:+ "Proposed Changes:")
      :: map (fun op => ConsoleLog (proposalLine op)) operations.
Proof.
  assert (Hfold : forall lines,
            fold_left (fun lines op => lines ++ [ConsoleLog (proposalLine op)])
              operations lines
            = lines ++ map (fun op => ConsoleLog (IOError:=IOError) (proposalLine op))
                         operations).
  { induction operations as [|op rest IH]; intros lines; simpl.
    - by rewrite app_nil_r.
    - by rewrite IH, <- app_assoc. }
  unfold showProposals. rewrite Hfold, <- app_assoc. reflexivity.
Qed.

(** X14. The filesystem changes only after every gate: whatever
    [main] is given, it leaves the filesystem as it found it, unless the
    key is set, the snapshot has a file, the service answered with a text
    that parses to a plan with an operation, there is no validation error
    or the user chose to continue, and the confirmation was given; then
    the filesystem is the one the execution loop leaves when run on that
    plan. *)
Theorem disk_changes_only_after_every_gate
    apiKey renamePrompt continueAnyway confirm (f : FS) :
  let result := mainBody apiKey targetDir renamePrompt continueAnyway confirm f in
  result.1 = f
  \/ (truthyString apiKey = true
      /\ confirm = true
      /\ exists onlyFiles text operations,
           readOnlyFiles f targetDir = Returned onlyFiles
           /\ onlyFiles <> []
           /\ completion onlyFiles renamePrompt = Returned (Some text)
           /\ text <> ""
           /\ parseOperations text = Some operations
           /\ operations <> []
           /\ (continueAnyway = true
               \/ validationErrors
                    (validationLoop targetDir onlyFiles operations
                       (initValidation f [])) = [])
           /\ result.1 = fs (executionLoop targetDir operations (initValidation f []))).
Proof.
  intros result. subst result. unfold mainBody.
  destruct (truthyString apiKey) eqn:Hkey; simpl; [|by left].
  destruct (readOnlyFiles f targetDir) as [e|onlyFiles] eqn:Hread; [by left|].
  destruct onlyFiles as [|file files]; [by left|]. simpl length. simpl Nat.eqb.
  cbv iota.
  destruct (completion (file :: files) renamePrompt) as [e|content] eqn:Hllm;
    [by left|].
  unfold afterResponse.
  destruct content as [text|]; simpl; [|by left].
  destruct (String.eqb text "") eqn:Htext; simpl; [by left|].
  destruct (parseOperations text) as [operations|] eqn:Hparse; [|by left].
  destruct operations as [|op ops]; [by left|]. simpl length. simpl Nat.eqb.
  cbv iota. simpl fst.
  match goal with
  | |- context [validateAndExecute ?d ?s ?ca ?c ?p ?f0 ?o] =>
      destruct (validateAndExecute_fs d s ca c p f0 o) as [Heq|(Hc & Hgo & Heq)]
  end; [by left|].
  right. split; [reflexivity|]. split; [exact Hc|].
  exists (file :: files), text, (op :: ops).
  split; [reflexivity|]. split; [discriminate|]. split; [exact Hllm|].
  split; [by apply String.eqb_neq|]. split; [exact Hparse|].
  split; [discriminate|]. split.
  - destruct Hgo as [Hca|Hclean]; [by left|]. right.
    rewrite <- Hclean. apply validationLoop_errors_any_console.
  - rewrite Heq. by apply executionLoop_fs_only.
Qed.

(** X15. The proposals are shown in full before anything is checked:
    when the response parses to a plan with an operation, the console gets
    the heading and one line for each operation, in plan order, with "No
    reason provided" where the reason is missing or empty, and whatever
    the validation, the gate and the renames write comes after. *)
Theorem proposals_are_shown_first
    onlyFiles continueAnyway confirm text operations (f : FS) out :
  text <> "" ->
  parseOperations text = Some operations ->
  operations <> [] ->
  exists rest,
    (afterResponse targetDir onlyFiles continueAnyway confirm (Some text) f out).2 =
    out ++ ConsoleLog (lineFeed +:+ "Proposed Changes:")
        :: map (fun op => ConsoleLog (proposalLine op)) operations ++ rest.
Proof.
  intros Htext Hparse Hops. unfold afterResponse. simpl.
  apply String.eqb_neq in Htext. rewrite Htext. simpl. rewrite Hparse.
  destruct operations as [|op ops]; [done|]. simpl length. simpl Nat.eqb. cbv iota.
  simpl snd.
  match goal with
  | |- context [validateAndExecute ?d ?s ?ca ?c ?p ?f0 ?o] =>
      destruct (validateAndExecute_console d s ca c p f0 o) as [rest Hrest]
  end.
  exists rest. rewrite Hrest, showProposals_eq, <- app_assoc. reflexivity.
Qed.

End Snapshot.

(** ** The further statements at work on the concrete directory *)

Module FlatDirKeeps.

Import FlatDir.

#[global] Instance flatdir_keeps : RenameKeeps Dir Errno.
Proof.
  split; simpl. intros d p q r Hne Hr. unfold rename.
  destruct (d !! p) as [c|]; [|exact Hr].
  destruct (decide (p = q)); simpl; [exact Hr|].
  unfold exists_ in *. apply bool_decide_eq_true. apply bool_decide_eq_true in Hr.
  destruct (decide (q = r)) as [->|Hqr].
  - rewrite lookup_insert_eq. eauto.
  - rewrite lookup_insert_ne by exact Hqr. by rewrite lookup_delete_ne.
Qed.

End FlatDirKeeps.

Module MoreRuns.

Import FlatDir Examples Desk.

(** The duplicate-target error of the plan with the ghost original. *)
Lemma validation_errors_are_justified_witness :
  let e := "Duplicate target filename: x.txt" in
  let errs := validationErrors
                (validationLoop "d" ["a.txt"; "b.txt"] planGhostDuplicate
                   (initValidation diskAB [])) in
  e ∈ errs
  /\ ((exists op, op ∈ planGhostDuplicate /\ (original op ∉ ["a.txt"; "b.txt"])
                  /\ e = unknownOriginalMsg op)
      \/ (exists pre op post,
            planGhostDuplicate = pre ++ op :: post
            /\ new op ∈ map new pre
            /\ e = duplicateTargetMsg op)).
Proof.
  intros e errs.
  assert (H1 : e ∈ errs) by (right; left).
  split; [exact H1|].
  exact (validation_errors_are_justified "d" ["a.txt"; "b.txt"]
           planGhostDuplicate diskAB [] e H1).
Defined.

(** The snapshot in another order and with a name twice. *)
Lemma validation_same_for_same_members_witness :
  (forall x : string, x ∈ ["a.txt"; "b.txt"] <-> x ∈ ["b.txt"; "a.txt"; "a.txt"])
  /\ validationLoop "d" ["a.txt"; "b.txt"] planGhostDuplicate (initValidation diskAB [])
     = validationLoop "d" ["b.txt"; "a.txt"; "a.txt"] planGhostDuplicate
         (initValidation diskAB []).
Proof.
  assert (H1 : forall x : string,
            x ∈ ["a.txt"; "b.txt"] <-> x ∈ ["b.txt"; "a.txt"; "a.txt"]).
  { intros x. rewrite !elem_of_cons, !elem_of_nil. tauto. }
  split; [exact H1|].
  exact (validation_same_for_same_members "d" ["a.txt"; "b.txt"]
           ["b.txt"; "a.txt"; "a.txt"] planGhostDuplicate
           (initValidation diskAB []) H1).
Defined.


(** The same plan, continued in spite of its errors and confirmed: the
    call for the ghost original is made and fails, the call for [b.txt]
    is made and renames it. *)
Lemma confirmed_run_attempts_whole_plan_witness :
  let final := validationLoop "d" ["a.txt"; "b.txt"] planGhostDuplicate
                 (initValidation diskAB []) in
  let gate := validationGate true final in
  let result := validateAndExecute "d" ["a.txt"; "b.txt"] true true
                  planGhostDuplicate diskAB [] in
  (true = true \/ validationErrors final = [])
  /\ fsAfterCalls "d" diskAB planGhostDuplicate =
       dirOf [("a.txt", "A"); ("x.txt", "B")]
  /\ fs result = fsAfterCalls "d" diskAB planGhostDuplicate
  /\ exists outs,
       console result = console gate.2 ++ outs ++ [ConsoleLog "Done."]
       /\ length outs = length planGhostDuplicate
       /\ forall i op, planGhostDuplicate !! i = Some op ->
            outs !! i =
            Some (renameEntry op
                    (renameCall "d"
                       (fsAfterCalls "d" diskAB (take i planGhostDuplicate)) op).2).
Proof.
  intros final gate result.
  assert (H1 : true = true \/ validationErrors final = []) by (by left).
  split; [exact H1|]. split; [by vm_compute|].
  exact (confirmed_run_attempts_whole_plan "d" ["a.txt"; "b.txt"] true true
           planGhostDuplicate diskAB [] eq_refl H1).
Defined.

(** What that run writes, line by line. *)
Lemma continued_run_lines :
  console (validateAndExecute "d" ["a.txt"; "b.txt"] true true
             planGhostDuplicate diskAB []) =
    [ConsoleError "Validation Errors:";
     ConsoleError "- Original file not found: ghost.txt";
     ConsoleError "- Duplicate target filename: x.txt";
     ConsoleErrorWith "Failed to rename ghost.txt:" ENOENT;
     ConsoleLog "Renamed: b.txt -> x.txt";
     ConsoleLog "Done."].
Proof. reflexivity. Qed.

(** The source [missing.txt] after a rename that does not produce it. *)
Lemma missing_source_fails_witness :
  let pre := [rename_to "a.txt" "x.txt"] in
  let op := rename_to "missing.txt" "y.txt" in
  let st := initValidation diskAB [] in
  pathExists (fs st) (path_join "d" (original op)) = false
  /\ (forall o, o ∈ pre -> path_join "d" (new o) <> path_join "d" (original op))
  /\ exists err,
       (renameCall "d" (fs (executionLoop "d" pre st)) op).2 = Some err
       /\ console (executionLoop "d" (pre ++ [op]) st) =
            console (executionLoop "d" pre st) ++ [failedEntry op err].
Proof.
  intros pre op st.
  assert (H1 : pathExists (fs st) (path_join "d" (original op)) = false)
    by reflexivity.
  assert (H2 : forall o, o ∈ pre ->
            path_join "d" (new o) <> path_join "d" (original op)).
  { intros o Ho. each_member Ho. discriminate. }
  split; [exact H1|]. split; [exact H2|].
  exact (missing_source_fails "d" pre op st H1 H2).
Defined.

(** A path the plan does not name as a target. *)
Lemma only_targets_are_created_witness :
  pathExists diskAB "d/z.txt" = false
  /\ ("d/z.txt" ∉ map (fun o => path_join "d" (new o)) planTwo)
  /\ pathExists
       (fs (validateAndExecute "d" ["a.txt"; "b.txt"] false true planTwo diskAB []))
       "d/z.txt" = false.
Proof.
  assert (H1 : pathExists diskAB "d/z.txt" = false) by reflexivity.
  assert (H2 : "d/z.txt" ∉ map (fun o => path_join "d" (new o)) planTwo)
    by compute_done.
  split; [exact H1|]. split; [exact H2|].
  exact (only_targets_are_created "d" ["a.txt"; "b.txt"] false true planTwo
           diskAB [] "d/z.txt" H1 H2).
Defined.

(** The file [b.txt], which the plan does not rename. *)
Lemma only_sources_are_removed_witness :
  pathExists diskAB "d/b.txt" = true
  /\ ("d/b.txt" ∉ map (fun o => path_join "d" (original o)) planOntoExisting)
  /\ pathExists
       (fs (validateAndExecute "d" ["a.txt"; "b.txt"] false true planOntoExisting
              diskAB []))
       "d/b.txt" = true.
Proof.
  assert (H1 : pathExists diskAB "d/b.txt" = true) by reflexivity.
  assert (H2 : "d/b.txt" ∉ map (fun o => path_join "d" (original o)) planOntoExisting)
    by compute_done.
  split; [exact H1|]. split; [exact H2|].
  exact (only_sources_are_removed "d" ["a.txt"; "b.txt"] false true
           planOntoExisting diskAB [] "d/b.txt" H1 H2).
Defined.

(** The listing has two files and a subdirectory. *)
Lemma snapshot_holds_the_files_witness :
  readOnlyFiles diskAB "d" = Returned ["a.txt"; "b.txt"]
  /\ exists files,
       readdir diskAB "d" = Returned files
       /\ ["a.txt"; "b.txt"] `sublist_of` files
       /\ (forall n, n ∈ ["a.txt"; "b.txt"] <->
             n ∈ files /\ statIsFile diskAB (path_join "d" n) = Returned true)
       /\ (NoDup files -> NoDup ["a.txt"; "b.txt"]).
Proof.
  assert (H1 : readOnlyFiles diskAB "d" = Returned ["a.txt"; "b.txt"])
    by reflexivity.
  split; [exact H1|].
  exact (snapshot_holds_the_files "d" diskAB ["a.txt"; "b.txt"] H1).
Defined.

(** The listing names [b.txt], which is not on disk any more. *)
Lemma unreadable_entry_stops_the_run_witness :
  truthyString (Some "key") = true
  /\ readdir diskA "d" = Returned ["a.txt"; "b.txt"; "sub"]
  /\ "b.txt" ∈ ["a.txt"; "b.txt"; "sub"]
  /\ statIsFile diskA (path_join "d" "b.txt") = Threw ENOENT
  /\ exists e culprit,
       culprit ∈ ["a.txt"; "b.txt"; "sub"]
       /\ statIsFile diskA (path_join "d" culprit) = Threw e
       /\ mainBody (Some "key") "d" "snake case" true true diskA =
            (diskA, [ConsoleErrorWith "An error occurred:" e]).
Proof.
  assert (H1 : truthyString (Some "key") = true) by reflexivity.
  assert (H2 : readdir diskA "d" = Returned ["a.txt"; "b.txt"; "sub"])
    by reflexivity.
  assert (H3 : "b.txt" ∈ ["a.txt"; "b.txt"; "sub"]) by (right; left).
  assert (H4 : statIsFile diskA (path_join "d" "b.txt") = Threw ENOENT)
    by reflexivity.
  split; [exact H1|]. split; [exact H2|]. split; [exact H3|]. split; [exact H4|].
  exact (unreadable_entry_stops_the_run "d" (Some "key") "snake case" true true
           diskA ["a.txt"; "b.txt"; "sub"] "b.txt" ENOENT H1 H2 H3 H4).
Defined.

(** A plan that renames the subdirectory. *)
Lemma non_file_original_is_unknown_witness :
  let op := rename_to "sub" "folder" in
  readOnlyFiles diskAB "d" = Returned ["a.txt"; "b.txt"]
  /\ op ∈ [op]
  /\ statIsFile diskAB (path_join "d" (original op)) = Returned false
  /\ unknownOriginalMsg op ∈
       validationErrors
         (validationLoop "d" ["a.txt"; "b.txt"] [op] (initValidation diskAB [])).
Proof.
  intros op.
  assert (H1 : readOnlyFiles diskAB "d" = Returned ["a.txt"; "b.txt"])
    by reflexivity.
  assert (H2 : op ∈ [op]) by left.
  assert (H3 : statIsFile diskAB (path_join "d" (original op)) = Returned false)
    by reflexivity.
  split; [exact H1|]. split; [exact H2|]. split; [exact H3|].
  exact (non_file_original_is_unknown "d" diskAB ["a.txt"; "b.txt"] [op] op []
           H1 H2 H3).
Defined.

(** The answer of the service, shown before anything else. *)
Lemma proposals_are_shown_first_witness :
  let text := "rename a.txt to x.txt and b.txt to y.txt" in
  let operations := [mkOp "a.txt" "x.txt" None; mkOp "b.txt" "y.txt" (Some "")] in
  text <> ""
  /\ parseOperations text = Some operations
  /\ operations <> []
  /\ exists rest,
       (afterResponse "d" ["a.txt"; "b.txt"] false false (Some text) diskAB []).2 =
       [] ++ ConsoleLog (lineFeed +:+ "Proposed Changes:")
          :: map (fun op => ConsoleLog (proposalLine op)) operations ++ rest.
Proof.
  intros text operations.
  assert (H1 : text <> "") by discriminate.
  assert (H2 : parseOperations text = Some operations) by reflexivity.
  assert (H3 : operations <> []) by discriminate.
  split; [exact H1|]. split; [exact H2|]. split; [exact H3|].
  exact (proposals_are_shown_first "d" ["a.txt"; "b.txt"] false false text
           operations diskAB [] H1 H2 H3).
Defined.

(** The directory that holds a subdirectory and nothing else. *)
Lemma directory_without_files_ends_the_run_witness :
  truthyString (Some "key") = true
  /\ @readdir Dir Errno onlySub ∅ "d" = Returned ["sub"]
  /\ (forall entry, entry ∈ ["sub"] ->
        @statIsFile Dir Errno onlySub ∅ (path_join "d" entry) = Returned false)
  /\ @mainBody Dir Errno flatdir onlySub (Some "key") "d" "snake case" true true ∅ =
       (∅, [ConsoleLog "No files found in the target directory."]).
Proof.
  assert (H1 : truthyString (Some "key") = true) by reflexivity.
  assert (H2 : @readdir Dir Errno onlySub ∅ "d" = Returned ["sub"]) by reflexivity.
  assert (H3 : forall entry, entry ∈ ["sub"] ->
            @statIsFile Dir Errno onlySub ∅ (path_join "d" entry) = Returned false).
  { intros entry Hentry. each_member Hentry. reflexivity. }
  split; [exact H1|]. split; [exact H2|]. split; [exact H3|].
  exact (@directory_without_files_ends_the_run Dir Errno flatdir onlySub
           "d" (Some "key") "snake case" true true ∅ ["sub"] H1 H2 H3).
Defined.

(** A whole run of [main] on that directory, confirmed. *)
Lemma main_run_lines :
  mainBody (Some "key") "d" "snake case" false true diskAB =
    (dirOf [("x.txt", "A"); ("y.txt", "B")],
     [ConsoleLog "Found 2 files. Querying LLM...";
      ConsoleLog (lineFeed +:+ "Proposed Changes:");
      ConsoleLog "a.txt -> x.txt  (No reason provided)";
      ConsoleLog "b.txt -> y.txt  (No reason provided)";
      ConsoleLog "Renamed: a.txt -> x.txt";
      ConsoleLog "Renamed: b.txt -> y.txt";
      ConsoleLog "Done."]).
Proof. by vm_compute. Qed.

End MoreRuns.
